(** * EncryptedWaterAllocator: request ledger, oracle correlation and
      zone accumulation

    A shallow embedding of the Solidity contract [EncryptedWaterAllocator]
    and the properties of its request lifecycle.

    - Storage mappings are finite maps ([gmap]) read through a default:
      a Solidity mapping answers the zero value at a key never written.
    - A function body is a computation in the monad [M]: it threads the
      contract state and may abort.  An aborting computation keeps the state
      it had reached, so that "no write before a failing check" is a
      statement about the body; [call] is the transaction boundary that
      throws that state away and restores the state before the call.
    - The FHE library, the decryption oracle and keccak256 are outside the
      contract: they are the interfaces [FHE] and [Keccak]. *)

From Stdlib Require Import ZArith Lia.
From Stdlib.Strings Require Import Byte.
From stdpp Require Import gmap strings list fin_maps.

Local Open Scope Z_scope.

(** ** Machine integers and ABI decoding *)

Module Abi.

Definition bytes : Type := list Byte.byte.

Definition MAX_UINT256 : Z := 2 ^ 256 - 1.
Definition MAX_UINT32 : Z := 2 ^ 32 - 1.

Definition byte_val (b : Byte.byte) : Z := Z.of_N (Byte.to_N b).

(** A big-endian word. *)
Definition be_word (bs : bytes) : Z :=
  fold_left (fun acc b => acc * 256 + byte_val b) bs 0.

(** The [i]-th 32-byte head slot of an ABI-encoded tuple. *)
Definition word_at (i : nat) (data : bytes) : Z :=
  be_word (take 32 (drop (32 * i) data)).

(** A slot decoded at type [uint32]: the coder rejects a word whose high
    bits are set. *)
Definition decode_uint32 (w : Z) : option Z :=
  if w <=? MAX_UINT32 then Some w else None.

(** [abi.decode(data, (uint32, uint32))]: short data is rejected, trailing
    data is ignored. *)
Definition decode_uint32_pair (data : bytes) : option (Z * Z) :=
  if (length data <? 64)%nat then None
  else match decode_uint32 (word_at 0 data), decode_uint32 (word_at 1 data) with
       | Some a, Some b => Some (a, b)
       | _, _ => None
       end.

(** [abi.decode(data, (uint32))]. *)
Definition decode_uint32_single (data : bytes) : option Z :=
  if (length data <? 32)%nat then None
  else decode_uint32 (word_at 0 data).

(** The encoder the oracle side uses; the contract itself never encodes. *)
Definition byte_of_Z (z : Z) : Byte.byte :=
  default Byte.x00 (Byte.of_N (Z.to_N (z mod 256))).

Definition encode_word (w : Z) : bytes :=
  map (fun i : nat => byte_of_Z (w / 256 ^ Z.of_nat (31 - i))) (seq 0 32).

Definition encode_uint32_pair (a b : Z) : bytes :=
  encode_word a ++ encode_word b.

End Abi.

Import Abi.

(** ** External capabilities *)

(** The FHE library as the contract uses it.  [euint32] is an opaque handle.
    [euint32_wrap] is the explicit conversion [euint32(x)] of a raw word into
    a handle; an unwritten storage slot of type [euint32] holds
    [euint32_wrap 0].  [FHE_decrypt] is what the oracle would reveal for a
    handle; the contract cannot call it. *)
Class FHE : Type := {
  euint32 : Type;
  euint32_wrap : Z -> euint32;
  FHE_asEuint32 : Z -> euint32;
  FHE_add : euint32 -> euint32 -> euint32;
  FHE_isInitialized : euint32 -> bool;
  FHE_toBytes32 : euint32 -> Z;
  FHE_checkSignatures : Z -> bytes -> bytes -> bool;
  FHE_decrypt : euint32 -> Z
}.

(** [keccak256(abi.encodePacked(zone))] read as a [uint256]. *)
Class Keccak : Type := {
  keccak256_packed : string -> Z
}.

(** What the properties below need of the FHE capability: decryption
    yields a [uint32]; the library's encryption of a value decrypts to it;
    addition is addition of plaintexts on 32 bits; and results of the
    library's addition are initialized handles.  Nothing is assumed of a
    handle obtained by the conversion [euint32_wrap]. *)
Class FHELaws (F : FHE) : Prop := {
  decrypt_range : forall h : euint32, 0 <= FHE_decrypt h <= MAX_UINT32;
  decrypt_asEuint32 : forall n, 0 <= n <= MAX_UINT32 -> FHE_decrypt (FHE_asEuint32 n) = n;
  decrypt_add : forall a b,
      FHE_decrypt (FHE_add a b) = (FHE_decrypt a + FHE_decrypt b) mod 2 ^ 32;
  isInitialized_add : forall a b, FHE_isInitialized (FHE_add a b) = true
}.

(** ** The contract *)

Section Contract.

Context {fhe : FHE} {keccak : Keccak}.

Record EncryptedRequest : Type := {
  id : Z;
  encryptedDemand : euint32;
  encryptedPriority : euint32;
  timestamp : Z
}.

Record DecryptedRequest : Type := {
  demand : Z;
  priority : Z;
  processed : bool
}.

Inductive Event : Type :=
| RequestSubmitted (id timestamp : Z)
| DecryptionRequested (id : Z)
| RequestDecrypted (id : Z)
| AllocationUpdated (zone : string) (newValue : euint32).

(** The callback the oracle is asked to invoke. *)
Inductive Selector : Type :=
| decryptRequest_selector
| decryptAllocation_selector.

(** One outbound [FHE.requestDecryption]: the id the oracle answered with,
    the ciphertexts sent and the callback named. *)
Record OracleRequest : Type := {
  oracle_id : Z;
  oracle_ciphertexts : list Z;
  oracle_callback : Selector
}.

Record State : Type := {
  requestCount : Z;
  encryptedRequests : gmap Z EncryptedRequest;
  decryptedRequests : gmap Z DecryptedRequest;
  encryptedAllocation : gmap string euint32;
  zoneList : list string;
  requestToId : gmap Z Z;
  (* the outside world, as the contract's transactions leave it *)
  events : list Event;
  oracle : list OracleRequest
}.

(** The deployed contract: every slot zero. *)
Definition init : State := {|
  requestCount := 0;
  encryptedRequests := ∅;
  decryptedRequests := ∅;
  encryptedAllocation := ∅;
  zoneList := [];
  requestToId := ∅;
  events := [];
  oracle := []
|}.

(** *** Storage reads: a mapping answers the zero value where unwritten *)

Definition zero_EncryptedRequest : EncryptedRequest :=
  {| id := 0; encryptedDemand := euint32_wrap 0;
     encryptedPriority := euint32_wrap 0; timestamp := 0 |}.

Definition zero_DecryptedRequest : DecryptedRequest :=
  {| demand := 0; priority := 0; processed := false |}.

Definition encryptedRequests_at (s : State) (k : Z) : EncryptedRequest :=
  default zero_EncryptedRequest (encryptedRequests s !! k).

Definition decryptedRequests_at (s : State) (k : Z) : DecryptedRequest :=
  default zero_DecryptedRequest (decryptedRequests s !! k).

Definition encryptedAllocation_at (s : State) (zone : string) : euint32 :=
  default (euint32_wrap 0) (encryptedAllocation s !! zone).

Definition requestToId_at (s : State) (k : Z) : Z :=
  default 0 (requestToId s !! k).

(** *** Storage writes *)

Definition set_requestCount (v : Z) (s : State) : State :=
  {| requestCount := v;
     encryptedRequests := encryptedRequests s;
     decryptedRequests := decryptedRequests s;
     encryptedAllocation := encryptedAllocation s;
     zoneList := zoneList s;
     requestToId := requestToId s;
     events := events s;
     oracle := oracle s |}.

Definition write_encryptedRequests (k : Z) (v : EncryptedRequest) (s : State) : State :=
  {| requestCount := requestCount s;
     encryptedRequests := <[k := v]> (encryptedRequests s);
     decryptedRequests := decryptedRequests s;
     encryptedAllocation := encryptedAllocation s;
     zoneList := zoneList s;
     requestToId := requestToId s;
     events := events s;
     oracle := oracle s |}.

Definition write_decryptedRequests (k : Z) (v : DecryptedRequest) (s : State) : State :=
  {| requestCount := requestCount s;
     encryptedRequests := encryptedRequests s;
     decryptedRequests := <[k := v]> (decryptedRequests s);
     encryptedAllocation := encryptedAllocation s;
     zoneList := zoneList s;
     requestToId := requestToId s;
     events := events s;
     oracle := oracle s |}.

Definition write_encryptedAllocation (zone : string) (v : euint32) (s : State) : State :=
  {| requestCount := requestCount s;
     encryptedRequests := encryptedRequests s;
     decryptedRequests := decryptedRequests s;
     encryptedAllocation := <[zone := v]> (encryptedAllocation s);
     zoneList := zoneList s;
     requestToId := requestToId s;
     events := events s;
     oracle := oracle s |}.

Definition push_zoneList (zone : string) (s : State) : State :=
  {| requestCount := requestCount s;
     encryptedRequests := encryptedRequests s;
     decryptedRequests := decryptedRequests s;
     encryptedAllocation := encryptedAllocation s;
     zoneList := zoneList s ++ [zone];
     requestToId := requestToId s;
     events := events s;
     oracle := oracle s |}.

Definition write_requestToId (k v : Z) (s : State) : State :=
  {| requestCount := requestCount s;
     encryptedRequests := encryptedRequests s;
     decryptedRequests := decryptedRequests s;
     encryptedAllocation := encryptedAllocation s;
     zoneList := zoneList s;
     requestToId := <[k := v]> (requestToId s);
     events := events s;
     oracle := oracle s |}.

Definition log_event (e : Event) (s : State) : State :=
  {| requestCount := requestCount s;
     encryptedRequests := encryptedRequests s;
     decryptedRequests := decryptedRequests s;
     encryptedAllocation := encryptedAllocation s;
     zoneList := zoneList s;
     requestToId := requestToId s;
     events := events s ++ [e];
     oracle := oracle s |}.

Definition log_oracle (r : OracleRequest) (s : State) : State :=
  {| requestCount := requestCount s;
     encryptedRequests := encryptedRequests s;
     decryptedRequests := decryptedRequests s;
     encryptedAllocation := encryptedAllocation s;
     zoneList := zoneList s;
     requestToId := requestToId s;
     events := events s;
     oracle := oracle s ++ [r] |}.

(** Assignment through a storage pointer to one field of
    [decryptedRequests[k]]. *)
Definition set_demand (v : Z) (r : DecryptedRequest) : DecryptedRequest :=
  {| demand := v; priority := priority r; processed := processed r |}.
Definition set_priority (v : Z) (r : DecryptedRequest) : DecryptedRequest :=
  {| demand := demand r; priority := v; processed := processed r |}.
Definition set_processed (v : bool) (r : DecryptedRequest) : DecryptedRequest :=
  {| demand := demand r; priority := priority r; processed := v |}.

Definition update_decryptedRequests (k : Z)
    (f : DecryptedRequest -> DecryptedRequest) (s : State) : State :=
  write_decryptedRequests k (f (decryptedRequests_at s k)) s.

(** *** Aborts and the contract monad *)

Inductive Error : Type :=
| Revert (reason : string)      (* require(c, reason) and revert(reason) *)
| Panic (code : Z)              (* 0x11: checked arithmetic overflow *)
| DecodeFailure                 (* abi.decode on malformed data *)
| InvalidProof.                 (* FHE.checkSignatures rejected the proof *)

Inductive outcome (A : Type) : Type :=
| Done (a : A) (s : State)
| Abort (e : Error) (s : State).
Arguments Done {A} a s.
Arguments Abort {A} e s.

Definition M (A : Type) : Type := State -> outcome A.

Definition ret {A : Type} (a : A) : M A := fun s => Done a s.

Definition bind {A B : Type} (m : M A) (k : A -> M B) : M B :=
  fun s => match m s with
           | Done a s' => k a s'
           | Abort e s' => Abort e s'
           end.

Definition abort {A : Type} (e : Error) : M A := fun s => Abort e s.
Definition gets {A : Type} (f : State -> A) : M A := fun s => Done (f s) s.
Definition modify (f : State -> State) : M unit := fun s => Done tt (f s).
Definition require (c : bool) (reason : string) : M unit :=
  if c then ret tt else abort (Revert reason).
Definition emit (e : Event) : M unit := modify (log_event e).

(** Checked [uint256] addition (Solidity 0.8). *)
Definition checked_add (a b : Z) : M Z :=
  if a + b <=? MAX_UINT256 then ret (a + b) else abort (Panic 17).

Definition abi_decode {A : Type} (r : option A) : M A :=
  match r with
  | Some a => ret a
  | None => abort DecodeFailure
  end.

End Contract.

Arguments Done {fhe A} a s.
Arguments Abort {fhe A} e s.

Declare Scope contract_scope.
Delimit Scope contract_scope with contract.
Notation "'let!' x ':=' m 'in' k" := (bind m (fun x => k))
  (at level 10, x name, m at level 100, k at level 200) : contract_scope.
Notation "'let!' ' p ':=' m 'in' k" := (bind m (fun x => match x with p => k end))
  (at level 10, p pattern, m at level 100, k at level 200) : contract_scope.
Notation "m >> k" := (bind m (fun _ => k))
  (at level 100, k at level 200, right associativity) : contract_scope.

Section Functions.

Context {fhe : FHE} {keccak : Keccak}.

Local Open Scope contract_scope.

(** [modifier onlyRequester(uint256 reqId) { _; }]: no condition. *)
Definition onlyRequester {A : Type} (reqId : Z) (body : M A) : M A := body.

(** [FHE.requestDecryption(ciphertexts, selector)], as the contract sees
    it: the ciphertexts go out to the oracle and an id comes back.  The id,
    [oracleId], is an input of the environment; which ids the library is
    able to hand out is its own business, see
    [FHE_requestDecryption_unique] below. *)
Definition FHE_requestDecryption (ciphertexts : list Z) (selector : Selector)
    (oracleId : Z) : M Z :=
  modify (log_oracle {| oracle_id := oracleId;
                        oracle_ciphertexts := ciphertexts;
                        oracle_callback := selector |}) >>
  ret oracleId.

(** [FHE.checkSignatures] reverts on a proof it does not accept.  Only the
    verdict is modelled: [events] holds the events this contract declares
    and emits, not what the library may log on its own account. *)
Definition checkSignatures (requestId : Z) (cleartexts proof : bytes) : M unit :=
  if FHE_checkSignatures requestId cleartexts proof then ret tt
  else abort InvalidProof.

Definition submitEncryptedRequest (block_timestamp : Z)
    (encryptedDemand encryptedPriority : euint32) : M unit :=
  let! count := gets requestCount in
  let! count' := checked_add count 1 in
  modify (set_requestCount count') >>
  let! newId := gets requestCount in
  modify (write_encryptedRequests newId
            {| id := newId;
               encryptedDemand := encryptedDemand;
               encryptedPriority := encryptedPriority;
               timestamp := block_timestamp |}) >>
  modify (write_decryptedRequests newId
            {| demand := 0; priority := 0; processed := false |}) >>
  emit (RequestSubmitted newId block_timestamp).

Definition requestDecryption (reqId : Z) (oracleId : Z) : M unit :=
  onlyRequester reqId (
    let! req := gets (fun s => encryptedRequests_at s reqId) in
    let! dReq := gets (fun s => decryptedRequests_at s reqId) in
    require (negb (processed dReq)) "Already decrypted" >>
    let ciphertexts := [FHE_toBytes32 (encryptedDemand req);
                        FHE_toBytes32 (encryptedPriority req)] in
    let! decReqId := FHE_requestDecryption ciphertexts decryptRequest_selector oracleId in
    modify (write_requestToId decReqId reqId) >>
    emit (DecryptionRequested reqId)).

Definition updateZoneAllocation (zone : string) (additional : euint32) : M unit :=
  let! current := gets (fun s => encryptedAllocation_at s zone) in
  (if negb (FHE_isInitialized current)
   then modify (write_encryptedAllocation zone (FHE_asEuint32 0)) >>
        modify (push_zoneList zone)
   else ret tt) >>
  let! current := gets (fun s => encryptedAllocation_at s zone) in
  modify (write_encryptedAllocation zone (FHE_add current additional)) >>
  let! newValue := gets (fun s => encryptedAllocation_at s zone) in
  emit (AllocationUpdated zone newValue).

Definition decryptRequest (decReqId : Z) (cleartexts proof : bytes) : M unit :=
  let! reqId := gets (fun s => requestToId_at s decReqId) in
  require (negb (reqId =? 0)) "Invalid request" >>
  let! eReq := gets (fun s => encryptedRequests_at s reqId) in
  let! dReq := gets (fun s => decryptedRequests_at s reqId) in
  require (negb (processed dReq)) "Already decrypted" >>
  checkSignatures decReqId cleartexts proof >>
  let! '(demand, priority) := abi_decode (decode_uint32_pair cleartexts) in
  modify (update_decryptedRequests reqId (set_demand demand)) >>
  modify (update_decryptedRequests reqId (set_priority priority)) >>
  modify (update_decryptedRequests reqId (set_processed true)) >>
  updateZoneAllocation "main_zone" (euint32_wrap demand) >>
  emit (RequestDecrypted reqId).

Definition getDecryptedRequest (reqId : Z) : M (Z * Z * bool) :=
  let! r := gets (fun s => decryptedRequests_at s reqId) in
  ret (demand r, priority r, processed r).

Definition getEncryptedAllocation (zone : string) : M euint32 :=
  gets (fun s => encryptedAllocation_at s zone).

Definition bytes32ToUint (b : Z) : Z := b.

Definition requestAllocationDecryption (zone : string) (oracleId : Z) : M unit :=
  let! count := gets (fun s => encryptedAllocation_at s zone) in
  require (FHE_isInitialized count) "Zone not found" >>
  let ciphertexts := [FHE_toBytes32 count] in
  let! reqId := FHE_requestDecryption ciphertexts decryptAllocation_selector oracleId in
  modify (write_requestToId reqId (bytes32ToUint (keccak256_packed zone))).

(** The loop of [getZoneFromHash] over [zoneList], first match wins. *)
Fixpoint scan_zones (zones : list string) (hash : Z) : option string :=
  match zones with
  | [] => None
  | zone :: rest =>
      if bytes32ToUint (keccak256_packed zone) =? hash then Some zone
      else scan_zones rest hash
  end.

Definition getZoneFromHash (hash : Z) : M string :=
  let! zones := gets zoneList in
  match scan_zones zones hash with
  | Some zone => ret zone
  | None => abort (Revert "Zone not found")
  end.

Definition decryptAllocation (reqId : Z) (cleartexts proof : bytes) : M unit :=
  let! zoneHash := gets (fun s => requestToId_at s reqId) in
  let! zone := getZoneFromHash zoneHash in
  checkSignatures reqId cleartexts proof >>
  let! value := abi_decode (decode_uint32_single cleartexts) in
  ret tt.

(** *** Transactions and traces *)

Inductive result (A : Type) : Type :=
| Ok (a : A)
| Reverted (e : Error).
Arguments Ok {A} a.
Arguments Reverted {A} e.

(** A call from outside: an abort restores the state before the call. *)
Definition call {A : Type} (m : M A) (s : State) : result A * State :=
  match m s with
  | Done a s' => (Ok a, s')
  | Abort e _ => (Reverted e, s)
  end.

(** The state-changing entry points, each with what the world supplies:
    the block timestamp, the id the oracle answers with. *)
Inductive Call : Type :=
| SubmitEncryptedRequest (block_timestamp : Z) (encryptedDemand encryptedPriority : euint32)
| RequestDecryption (reqId oracleId : Z)
| DecryptRequest (decReqId : Z) (cleartexts proof : bytes)
| RequestAllocationDecryption (zone : string) (oracleId : Z)
| DecryptAllocation (reqId : Z) (cleartexts proof : bytes).

Definition dispatch (c : Call) : M unit :=
  match c with
  | SubmitEncryptedRequest t d p => submitEncryptedRequest t d p
  | RequestDecryption reqId oracleId => requestDecryption reqId oracleId
  | DecryptRequest decReqId cleartexts proof => decryptRequest decReqId cleartexts proof
  | RequestAllocationDecryption zone oracleId => requestAllocationDecryption zone oracleId
  | DecryptAllocation reqId cleartexts proof => decryptAllocation reqId cleartexts proof
  end.

Definition step (c : Call) (s : State) : State := snd (call (dispatch c) s).

Definition succeeds (c : Call) (s : State) : bool :=
  match dispatch c s with
  | Done _ _ => true
  | Abort _ _ => false
  end.

Fixpoint run (calls : list Call) (s : State) : State :=
  match calls with
  | [] => s
  | c :: rest => run rest (step c s)
  end.

(** The calls of a trace that went through, in order. *)
Fixpoint successful (calls : list Call) (s : State) : list Call :=
  match calls with
  | [] => []
  | c :: rest =>
      (if succeeds c s then [c] else []) ++ successful rest (step c s)
  end.

(** *** What a trace shows *)

(** The demand a resolution call reveals. *)
Definition revealed_demand (c : Call) : option Z :=
  match c with
  | DecryptRequest _ cleartexts _ => fst <$> decode_uint32_pair cleartexts
  | _ => None
  end.

(** Demands d_1 .. d_k of the resolutions that went through. *)
Definition resolved_demands (calls : list Call) (s : State) : list Z :=
  omap revealed_demand (successful calls s).

Definition sum_demands (ds : list Z) : Z := foldr Z.add 0 ds.

(** Ids handed out, read off the [RequestSubmitted] events. *)
Definition submitted_id (e : Event) : option Z :=
  match e with
  | RequestSubmitted id _ => Some id
  | _ => None
  end.

Definition submitted_ids (s : State) : list Z := omap submitted_id (events s).

Definition is_submission (c : Call) : bool :=
  match c with
  | SubmitEncryptedRequest _ _ _ => true
  | _ => false
  end.

(** The submissions of a trace that went through, in order. *)
Definition submissions (calls : list Call) (s : State) : list Call :=
  List.filter is_submission (successful calls s).

(** The callback id a decryption request is answered with. *)
Definition issued_callback (c : Call) : option Z :=
  match c with
  | RequestDecryption _ oracleId => Some oracleId
  | RequestAllocationDecryption _ oracleId => Some oracleId
  | _ => None
  end.

(** Callback ids registered during a trace: those of the decryption
    requests that went through. *)
Definition registered_callbacks (calls : list Call) (s : State) : list Z :=
  omap issued_callback (successful calls s).

(** An id is issued once a submission has been given it. *)
Definition issued (s : State) (reqId : Z) : Prop := 1 <= reqId <= requestCount s.

(** The plaintext behind a zone's running total. *)
Definition zone_total (s : State) (zone : string) : Z :=
  FHE_decrypt (encryptedAllocation_at s zone).

(** *** Invariants of the reachable states *)

(** A request not marked processed still holds the zero result. *)
Definition unresolved_zero (s : State) : Prop :=
  forall k, processed (decryptedRequests_at s k) = false ->
            decryptedRequests_at s k = zero_DecryptedRequest.

(** No ciphertext is stored at an id no submission was given, and
    nothing at all is stored for id 0. *)
Definition unissued_untouched (s : State) : Prop :=
  0 <= requestCount s /\
  (forall k, ~ issued s k -> encryptedRequests s !! k = None) /\
  decryptedRequests s !! 0 = None.

(** Every total that was written is an initialized handle. *)
Definition zones_initialized (s : State) : Prop :=
  forall zone h, encryptedAllocation s !! zone = Some h ->
                 FHE_isInitialized h = true.

(** Only the zone the resolution handler names is ever written. *)
Definition only_main_zone (s : State) : Prop :=
  forall zone, zone <> "main_zone" -> encryptedAllocation s !! zone = None.

(** *** The state each entry point leaves when it goes through

    Closed forms of the bodies above, proved equal to them below. *)

Definition submitted (block_timestamp : Z) (d p : euint32) (s : State) : State :=
  let newId := requestCount s + 1 in
  log_event (RequestSubmitted newId block_timestamp)
    (write_decryptedRequests newId zero_DecryptedRequest
       (write_encryptedRequests newId
          {| id := newId; encryptedDemand := d; encryptedPriority := p;
             timestamp := block_timestamp |}
          (set_requestCount newId s))).

Definition decryption_requested (reqId oracleId : Z) (s : State) : State :=
  let req := encryptedRequests_at s reqId in
  log_event (DecryptionRequested reqId)
    (write_requestToId oracleId reqId
       (log_oracle {| oracle_id := oracleId;
                      oracle_ciphertexts := [FHE_toBytes32 (encryptedDemand req);
                                             FHE_toBytes32 (encryptedPriority req)];
                      oracle_callback := decryptRequest_selector |} s)).

Definition contributed (zone : string) (additional : euint32) (s : State) : State :=
  let s1 := if FHE_isInitialized (encryptedAllocation_at s zone) then s
            else push_zoneList zone (write_encryptedAllocation zone (FHE_asEuint32 0) s) in
  let s2 := write_encryptedAllocation zone
              (FHE_add (encryptedAllocation_at s1 zone) additional) s1 in
  log_event (AllocationUpdated zone (encryptedAllocation_at s2 zone)) s2.

Definition resolved (reqId d p : Z) (s : State) : State :=
  log_event (RequestDecrypted reqId)
    (contributed "main_zone" (euint32_wrap d)
       (update_decryptedRequests reqId (set_processed true)
          (update_decryptedRequests reqId (set_priority p)
             (update_decryptedRequests reqId (set_demand d) s)))).

Definition allocation_decryption_requested (zone : string) (oracleId : Z)
    (s : State) : State :=
  write_requestToId oracleId (bytes32ToUint (keccak256_packed zone))
    (log_oracle {| oracle_id := oracleId;
                   oracle_ciphertexts := [FHE_toBytes32 (encryptedAllocation_at s zone)];
                   oracle_callback := decryptAllocation_selector |} s).

(** *** What a resolution merges into the total *)

(** [FHE.add(encryptedAllocation[zone], euint32(demand))]: the handle merged
    for a revealed demand is the conversion of the demand, not an
    encryption of it. *)
Definition merge_demand (total : euint32) (d : Z) : euint32 :=
  FHE_add total (euint32_wrap d).

(** The total after merging a sequence of demands into a fresh zone. *)
Definition merged_total (ds : list Z) : euint32 :=
  fold_left merge_demand ds (FHE_asEuint32 0).

(** What the handle merged for a demand decrypts to. *)
Definition merged_plaintext (d : Z) : Z := FHE_decrypt (euint32_wrap d).

(** *** Further readings of a state and of a trace *)

(** The registry and the accumulator map in lock-step: the list names each
    zone once, and names exactly the zones that hold a total. *)
Definition zone_registry_lockstep (s : State) : Prop :=
  NoDup (zoneList s) /\
  forall zone, zone ∈ zoneList s <-> is_Some (encryptedAllocation s !! zone).

(** Every stored result is a pair of [uint32]. *)
Definition results_in_range (s : State) : Prop :=
  forall k, 0 <= demand (decryptedRequests_at s k) <= MAX_UINT32 /\
            0 <= priority (decryptedRequests_at s k) <= MAX_UINT32.

(** Ids in the [RequestDecrypted] events, and zones in the
    [AllocationUpdated] events. *)
Definition decrypted_id (e : Event) : option Z :=
  match e with
  | RequestDecrypted id => Some id
  | _ => None
  end.

Definition updated_zone (e : Event) : option string :=
  match e with
  | AllocationUpdated zone _ => Some zone
  | _ => None
  end.

Definition requested_id (e : Event) : option Z :=
  match e with
  | DecryptionRequested id => Some id
  | _ => None
  end.

Definition is_resolution (c : Call) : bool :=
  match c with
  | DecryptRequest _ _ _ => true
  | _ => false
  end.

Definition is_request (c : Call) : bool :=
  match c with
  | RequestDecryption _ _ => true
  | _ => false
  end.

(** The resolutions of a trace that went through. *)
Definition resolutions (calls : list Call) (s : State) : list Call :=
  List.filter is_resolution (successful calls s).

(** The request ids of the decryption requests that went through. *)
Definition requested_target (c : Call) : option Z :=
  match c with
  | RequestDecryption reqId _ => Some reqId
  | _ => None
  end.

(** *** The writes under one request id *)

(** What an event says of the result slot of request [k]: a submission
    given id [k] cleared it, a resolution of [k] filled it. *)
Definition slot_event (k : Z) (e : Event) : option bool :=
  match e with
  | RequestSubmitted id _ => if id =? k then Some false else None
  | RequestDecrypted id => if id =? k then Some true else None
  | _ => None
  end.

(** The submissions and resolutions of request [k] so far, oldest first:
    [false] for a submission, [true] for a resolution. *)
Definition slot_history (k : Z) (s : State) : list bool :=
  omap (slot_event k) (events s).

(** *** The registrations under one callback id *)

(** The correlation a decryption request stores: callback id, domain id. *)
Definition registration (c : Call) : option (Z * Z) :=
  match c with
  | RequestDecryption reqId oracleId => Some (oracleId, reqId)
  | RequestAllocationDecryption zone oracleId =>
      Some (oracleId, bytes32ToUint (keccak256_packed zone))
  | _ => None
  end.

(** The correlations stored during a trace, in order. *)
Definition registrations (calls : list Call) (s : State) : list (Z * Z) :=
  omap registration (successful calls s).

(** The domain ids stored under callback id [k] during a trace, in order. *)
Definition correlated (k : Z) (calls : list Call) (s : State) : list Z :=
  snd <$> List.filter (fun r => fst r =? k) (registrations calls s).

(** *** The oracle library's side of a registration *)



(** The two requesting entry points, line for line as above, against a
    given library call. *)
Definition requestDecryption_via (library : list Z -> Selector -> Z -> M Z)
    (reqId : Z) (oracleId : Z) : M unit :=
  onlyRequester reqId (
    let! req := gets (fun s => encryptedRequests_at s reqId) in
    let! dReq := gets (fun s => decryptedRequests_at s reqId) in
    require (negb (processed dReq)) "Already decrypted" >>
    let ciphertexts := [FHE_toBytes32 (encryptedDemand req);
                        FHE_toBytes32 (encryptedPriority req)] in
    let! decReqId := library ciphertexts decryptRequest_selector oracleId in
    modify (write_requestToId decReqId reqId) >>
    emit (DecryptionRequested reqId)).

Definition requestAllocationDecryption_via (library : list Z -> Selector -> Z -> M Z)
    (zone : string) (oracleId : Z) : M unit :=
  let! count := gets (fun s => encryptedAllocation_at s zone) in
  require (FHE_isInitialized count) "Zone not found" >>
  let ciphertexts := [FHE_toBytes32 count] in
  let! reqId := library ciphertexts decryptAllocation_selector oracleId in
  modify (write_requestToId reqId (bytes32ToUint (keccak256_packed zone))).

Definition dispatch_via (library : list Z -> Selector -> Z -> M Z) (c : Call) : M unit :=
  match c with
  | RequestDecryption reqId oracleId => requestDecryption_via library reqId oracleId
  | RequestAllocationDecryption zone oracleId =>
      requestAllocationDecryption_via library zone oracleId
  | _ => dispatch c
  end.

Definition step_via (library : list Z -> Selector -> Z -> M Z) (c : Call) (s : State) : State :=
  snd (call (dispatch_via library c) s).

Fixpoint run_via (library : list Z -> Selector -> Z -> M Z) (calls : list Call)
    (s : State) : State :=
  match calls with
  | [] => s
  | c :: rest => run_via library rest (step_via library c s)
  end.

End Functions.

Arguments Ok {A} a.
Arguments Reverted {A} e.

(** ** A plaintext mirror of the FHE capability

    A stand-in for the FHE library in which a handle carries its plaintext
    in the low 32 bits, with bit 32 set on every handle the library makes,
    so that the zero handle is the only uninitialized one.  It is what the
    concrete runs below execute the contract against. *)

Module Mock.

Definition made (n : Z) : Z := 2 ^ 32 + n mod 2 ^ 32.

Definition mock_fhe : FHE := {|
  euint32 := Z;
  euint32_wrap := fun w => w;
  FHE_asEuint32 := made;
  FHE_add := fun a b => made (a + b);
  FHE_isInitialized := fun h => negb (h =? 0);
  FHE_toBytes32 := fun h => h;
  FHE_checkSignatures := fun _ _ proof => negb (length proof =? 0)%nat;
  FHE_decrypt := fun h => h mod 2 ^ 32
|}.

(** A second stand-in, equal to the mirror on every handle the library
    makes and different on the others: a handle that did not come out of the
    library carries no plaintext and decrypts to zero. *)
Definition strict_plain (h : Z) : Z := if 2 ^ 32 <=? h then h mod 2 ^ 32 else 0.

Definition strict_fhe : FHE := {|
  euint32 := Z;
  euint32_wrap := fun w => w;
  FHE_asEuint32 := made;
  FHE_add := fun a b => made (strict_plain a + strict_plain b);
  FHE_isInitialized := fun h => negb (h =? 0);
  FHE_toBytes32 := fun h => h;
  FHE_checkSignatures := fun _ _ proof => negb (length proof =? 0)%nat;
  FHE_decrypt := strict_plain
|}.

Definition mock_keccak : Keccak := {|
  keccak256_packed := fun zone =>
    fold_left (fun acc c => (acc * 257 + Z.of_nat (Ascii.nat_of_ascii c) + 1) mod 2 ^ 256)
              (String.list_ascii_of_string zone) 0
|}.

Definition good_proof : bytes := [Byte.x01].
Definition bad_proof : bytes := [].

(** *** Traces run against the mirror *)

Section Traces.

#[local] Existing Instance mock_fhe.
#[local] Existing Instance mock_keccak.

(** One request, submitted, sent for decryption and resolved. *)
Definition lifecycle : list Call :=
  [ SubmitEncryptedRequest 1000 (made 5) (made 2);
    RequestDecryption 1 70;
    DecryptRequest 70 (encode_uint32_pair 5 2) good_proof ].

(** The same, stopped before the callback arrives. *)
Definition in_flight_70 : list Call :=
  [ SubmitEncryptedRequest 1000 (made 5) (made 2);
    RequestDecryption 1 70 ].

(** Two requests, each revealing the largest 32-bit demand. *)
Definition two_large_demands : list Call :=
  [ SubmitEncryptedRequest 1000 (made MAX_UINT32) (made 0);
    SubmitEncryptedRequest 1001 (made MAX_UINT32) (made 0);
    RequestDecryption 1 11;
    RequestDecryption 2 12;
    DecryptRequest 11 (encode_uint32_pair MAX_UINT32 0) good_proof;
    DecryptRequest 12 (encode_uint32_pair MAX_UINT32 0) good_proof ].

(** Three requests with small demands, all resolved, with a replay and
    a rejected proof in between. *)
Definition three_small_demands : list Call :=
  [ SubmitEncryptedRequest 1000 (made 5) (made 1);
    SubmitEncryptedRequest 1001 (made 7) (made 2);
    SubmitEncryptedRequest 1002 (made 0) (made 3);
    RequestDecryption 1 21;
    RequestDecryption 2 22;
    RequestDecryption 3 23;
    DecryptRequest 21 (encode_uint32_pair 5 1) good_proof;
    DecryptRequest 21 (encode_uint32_pair 5 1) good_proof;
    DecryptRequest 22 (encode_uint32_pair 7 2) bad_proof;
    DecryptRequest 22 (encode_uint32_pair 7 2) good_proof;
    DecryptRequest 23 (encode_uint32_pair 0 3) good_proof ].

(** One submission and nothing else. *)
Definition one_submission : list Call :=
  [ SubmitEncryptedRequest 1000 (made 3) (made 1) ].


(** A request in flight: submitted, sent for decryption, callback 10
    outstanding. *)
Definition in_flight : list Call :=
  [ SubmitEncryptedRequest 1000 (made 3) (made 1);
    RequestDecryption 1 10 ].

(** No submission at all: a decryption is requested for id 5 and the
    oracle's callback for it is resolved. *)
Definition phantom_resolved : list Call :=
  [ RequestDecryption 5 1;
    DecryptRequest 1 (encode_uint32_pair 3 4) good_proof ].

(** The same, followed by five submissions: the fifth is given id 5. *)
Definition phantom_then_submitted : list Call :=
  phantom_resolved
  ++ [ SubmitEncryptedRequest 1000 (made 1) (made 1);
       SubmitEncryptedRequest 1001 (made 1) (made 1);
       SubmitEncryptedRequest 1002 (made 1) (made 1);
       SubmitEncryptedRequest 1003 (made 1) (made 1);
       SubmitEncryptedRequest 1004 (made 3) (made 4) ].

(** A zone total sent for decryption after the first resolution; the
    oracle answers with id 80. *)
Definition zone_flow : list Call :=
  lifecycle ++ [ RequestAllocationDecryption "main_zone" 80 ].

(** A request for id 0, answered with callback 9. *)
Definition zero_requested : list Call :=
  [ SubmitEncryptedRequest 1000 (made 3) (made 1);
    RequestDecryption 0 9 ].

(** A submission interleaved with other calls, some of which fail. *)
Definition interleaved : list Call :=
  [ RequestDecryption 0 1;
    SubmitEncryptedRequest 1000 (made 5) (made 2);
    DecryptRequest 99 (encode_uint32_pair 5 2) good_proof;
    SubmitEncryptedRequest 1001 (made 6) (made 2);
    RequestAllocationDecryption "main_zone" 2;
    SubmitEncryptedRequest 1002 (made 7) (made 2) ].

End Traces.

(** The first trace again, run against the second stand-in. *)
Definition strict_lifecycle : list (@Call strict_fhe) :=
  [ SubmitEncryptedRequest (fhe := strict_fhe) 1000 (made 5) (made 2);
    RequestDecryption 1 70;
    DecryptRequest 70 (encode_uint32_pair 5 2) good_proof ].

End Mock.

(** ** ABI encoding: what the oracle encodes, the contract decodes *)

Lemma byte_val_byte_of_Z z : byte_val (byte_of_Z z) = z mod 256.
Proof.
  unfold byte_val, byte_of_Z.
  pose proof (Z.mod_pos_bound z 256 ltac:(lia)) as Hr.
  destruct (Byte.of_N (Z.to_N (z mod 256))) as [b|] eqn:E; cbn.
  - apply Byte.to_of_N in E. rewrite E. lia.
  - apply Byte.of_N_None_iff in E. lia.
Qed.

Lemma be_word_snoc bs b : be_word (bs ++ [b]) = be_word bs * 256 + byte_val b.
Proof. unfold be_word. rewrite fold_left_app. reflexivity. Qed.

(** [n] big-endian digits of [w] read back as [w] modulo 256^n. *)
Lemma be_word_digits (n : nat) : forall w,
  0 <= w ->
  be_word (map (fun i : nat => byte_of_Z (w / 256 ^ Z.of_nat (n - 1 - i))) (seq 0 n))
    = w mod 256 ^ Z.of_nat n.
Proof.
  induction n as [|n IH]; intros w Hw.
  - cbn. rewrite Z.mod_1_r. reflexivity.
  - rewrite seq_S, map_app. cbn [map Nat.add]. rewrite be_word_snoc.
    replace (S n - 1 - n)%nat with 0%nat by lia.
    rewrite Z.pow_0_r, Z.div_1_r, byte_val_byte_of_Z.
    rewrite (map_ext_in _ (fun i : nat => byte_of_Z (w / 256 / 256 ^ Z.of_nat (n - 1 - i)))).
    + rewrite IH by (apply Z.div_pos; lia).
      rewrite Nat2Z.inj_succ, Z.pow_succ_r by lia.
      rewrite Z.rem_mul_r; [lia|lia|apply Z.pow_pos_nonneg; lia].
    + intros i Hi. apply in_seq in Hi. f_equal.
      rewrite Z.div_div by lia. f_equal.
      rewrite <- Z.pow_succ_r by lia. f_equal. lia.
Qed.

Lemma be_word_encode_word w : 0 <= w <= MAX_UINT256 -> be_word (encode_word w) = w.
Proof.
  intros Hw. transitivity (w mod 256 ^ Z.of_nat 32).
  - exact (be_word_digits 32 w (proj1 Hw)).
  - apply Z.mod_small. unfold MAX_UINT256 in Hw.
    change (256 ^ Z.of_nat 32) with (2 ^ 256). lia.
Qed.

Lemma length_encode_word w : length (encode_word w) = 32%nat.
Proof. unfold encode_word. rewrite length_map, length_seq. reflexivity. Qed.

(** Decoding a pair of encoded [uint32] gives the pair back. *)
Lemma decode_encode_uint32_pair a b :
  0 <= a <= MAX_UINT32 -> 0 <= b <= MAX_UINT32 ->
  decode_uint32_pair (encode_uint32_pair a b) = Some (a, b).
Proof.
  intros Ha Hb. unfold decode_uint32_pair, encode_uint32_pair, word_at.
  rewrite length_app, !length_encode_word. cbn [Nat.add Nat.ltb Nat.leb].
  change (32 * 0)%nat with 0%nat. change (32 * 1)%nat with 32%nat.
  rewrite drop_0, take_app_length' by (symmetry; apply length_encode_word).
  rewrite drop_app_length' by (symmetry; apply length_encode_word).
  rewrite take_ge by (rewrite length_encode_word; lia).
  unfold MAX_UINT32 in *.
  rewrite !be_word_encode_word by (unfold MAX_UINT256; lia).
  unfold decode_uint32, MAX_UINT32.
  destruct (a <=? 2 ^ 32 - 1) eqn:Ea; [|lia].
  destruct (b <=? 2 ^ 32 - 1) eqn:Eb; [|lia].
  reflexivity.
Qed.

(** ** Properties *)

Section Properties.

Context {fhe : FHE} {keccak : Keccak}.

Local Open Scope contract_scope.

#[local] Arguments submitted : simpl never.
#[local] Arguments decryption_requested : simpl never.
#[local] Arguments contributed : simpl never.
#[local] Arguments resolved : simpl never.
#[local] Arguments allocation_decryption_requested : simpl never.

(** *** Each body against its closed form *)

Lemma submitEncryptedRequest_run t d p s :
  submitEncryptedRequest t d p s =
    if requestCount s + 1 <=? MAX_UINT256 then Done tt (submitted t d p s)
    else Abort (Panic 17) s.
Proof.
  unfold submitEncryptedRequest, bind, gets, checked_add.
  destruct (requestCount s + 1 <=? MAX_UINT256); reflexivity.
Qed.

Lemma requestDecryption_run reqId oracleId s :
  requestDecryption reqId oracleId s =
    if processed (decryptedRequests_at s reqId)
    then Abort (Revert "Already decrypted") s
    else Done tt (decryption_requested reqId oracleId s).
Proof.
  unfold requestDecryption, onlyRequester, bind, gets, require.
  destruct (processed (decryptedRequests_at s reqId)); reflexivity.
Qed.

Lemma updateZoneAllocation_run zone additional s :
  updateZoneAllocation zone additional s = Done tt (contributed zone additional s).
Proof.
  unfold updateZoneAllocation, contributed, bind, gets.
  destruct (FHE_isInitialized (encryptedAllocation_at s zone)); reflexivity.
Qed.

Lemma decryptRequest_run decReqId cleartexts proof s :
  decryptRequest decReqId cleartexts proof s =
    let reqId := requestToId_at s decReqId in
    if reqId =? 0 then Abort (Revert "Invalid request") s
    else if processed (decryptedRequests_at s reqId)
         then Abort (Revert "Already decrypted") s
    else if negb (FHE_checkSignatures decReqId cleartexts proof)
         then Abort InvalidProof s
    else match decode_uint32_pair cleartexts with
         | None => Abort DecodeFailure s
         | Some (d, p) => Done tt (resolved reqId d p s)
         end.
Proof.
  unfold decryptRequest, bind, gets, require, checkSignatures, abi_decode.
  cbn. destruct (requestToId_at s decReqId =? 0); cbn; [reflexivity|].
  destruct (processed (decryptedRequests_at s (requestToId_at s decReqId))); cbn; [reflexivity|].
  destruct (FHE_checkSignatures decReqId cleartexts proof); cbn; [|reflexivity].
  destruct (decode_uint32_pair cleartexts) as [[d p]|]; cbn; [|reflexivity].
  unfold bind, modify, gets, emit, resolved, contributed.
  destruct (FHE_isInitialized _); reflexivity.
Qed.

Lemma requestAllocationDecryption_run zone oracleId s :
  requestAllocationDecryption zone oracleId s =
    if FHE_isInitialized (encryptedAllocation_at s zone)
    then Done tt (allocation_decryption_requested zone oracleId s)
    else Abort (Revert "Zone not found") s.
Proof.
  unfold requestAllocationDecryption, bind, gets, require.
  destruct (FHE_isInitialized (encryptedAllocation_at s zone)); reflexivity.
Qed.

Lemma decryptAllocation_run reqId cleartexts proof s :
  (exists e, decryptAllocation reqId cleartexts proof s = Abort e s) \/
  decryptAllocation reqId cleartexts proof s = Done tt s.
Proof.
  unfold decryptAllocation, getZoneFromHash, bind, gets, checkSignatures, abi_decode.
  destruct (scan_zones (zoneList s) (requestToId_at s reqId)); cbn; [|eauto].
  destruct (FHE_checkSignatures reqId cleartexts proof); cbn; [|eauto].
  destruct (decode_uint32_single cleartexts); cbn; eauto.
Qed.

(** *** Induction over a trace *)

(** A step either leaves the state alone (the call reverted, or it was a
    [decryptAllocation], which writes nothing) or lands in one of the
    closed forms, with the guards of that entry point known to hold. *)
Lemma step_cases (P : State -> Prop) (c : Call) (s : State) :
  P s ->
  (forall t d p,
      c = SubmitEncryptedRequest t d p ->
      requestCount s + 1 <= MAX_UINT256 -> P (submitted t d p s)) ->
  (forall reqId oracleId,
      c = RequestDecryption reqId oracleId ->
      processed (decryptedRequests_at s reqId) = false ->
      P (decryption_requested reqId oracleId s)) ->
  (forall decReqId cleartexts proof d p,
      c = DecryptRequest decReqId cleartexts proof ->
      requestToId_at s decReqId <> 0 ->
      processed (decryptedRequests_at s (requestToId_at s decReqId)) = false ->
      decode_uint32_pair cleartexts = Some (d, p) ->
      P (resolved (requestToId_at s decReqId) d p s)) ->
  (forall zone oracleId,
      c = RequestAllocationDecryption zone oracleId ->
      FHE_isInitialized (encryptedAllocation_at s zone) = true ->
      P (allocation_decryption_requested zone oracleId s)) ->
  P (step c s).
Proof.
  intros Hs Hsub Hreq Hres Hzone.
  destruct c as [t d p|reqId oracleId|decReqId cleartexts proof|zone oracleId|reqId cleartexts proof];
    unfold step, call, dispatch.
  - rewrite submitEncryptedRequest_run.
    destruct (requestCount s + 1 <=? MAX_UINT256) eqn:E; cbn; [|exact Hs].
    apply Hsub; [reflexivity|lia].
  - rewrite requestDecryption_run.
    destruct (processed (decryptedRequests_at s reqId)) eqn:E; cbn; [exact Hs|].
    apply Hreq; [reflexivity|exact E].
  - rewrite decryptRequest_run. cbn zeta.
    destruct (requestToId_at s decReqId =? 0) eqn:E0; cbn; [exact Hs|].
    destruct (processed (decryptedRequests_at s (requestToId_at s decReqId))) eqn:E1;
      cbn; [exact Hs|].
    destruct (FHE_checkSignatures decReqId cleartexts proof); cbn; [|exact Hs].
    destruct (decode_uint32_pair cleartexts) as [[d p]|] eqn:E2; cbn; [|exact Hs].
    eapply Hres; [reflexivity|lia|exact E1|exact E2].
  - rewrite requestAllocationDecryption_run.
    destruct (FHE_isInitialized (encryptedAllocation_at s zone)) eqn:E; cbn; [|exact Hs].
    apply Hzone; [reflexivity|exact E].
  - destruct (decryptAllocation_run reqId cleartexts proof s) as [[e ->] | ->];
      cbn; exact Hs.
Qed.

Lemma run_invariant (P : State -> Prop) :
  (forall c s, P s -> P (step c s)) ->
  forall calls s, P s -> P (run calls s).
Proof.
  intros Hstep calls. induction calls as [|c rest IH]; intros s Hs; cbn.
  - exact Hs.
  - apply IH, Hstep, Hs.
Qed.

Lemma run_app calls1 calls2 s :
  run (calls1 ++ calls2) s = run calls2 (run calls1 s).
Proof.
  revert s. induction calls1 as [|c rest IH]; intros s; cbn; [reflexivity|apply IH].
Qed.

Lemma call_eta {A : Type} (m : M A) (s : State) :
  call m s = (fst (call m s), snd (call m s)).
Proof. destruct (call m s). reflexivity. Qed.

(** *** What a contribution to a zone leaves alone *)

Lemma contributed_frame zone additional s :
  requestCount (contributed zone additional s) = requestCount s /\
  encryptedRequests (contributed zone additional s) = encryptedRequests s /\
  decryptedRequests (contributed zone additional s) = decryptedRequests s /\
  requestToId (contributed zone additional s) = requestToId s /\
  oracle (contributed zone additional s) = oracle s.
Proof.
  unfold contributed.
  destruct (FHE_isInitialized (encryptedAllocation_at s zone)); cbn; auto.
Qed.

Lemma contributed_events zone additional s :
  exists v, events (contributed zone additional s)
            = events s ++ [AllocationUpdated zone v].
Proof.
  unfold contributed.
  destruct (FHE_isInitialized (encryptedAllocation_at s zone)); cbn; eauto.
Qed.

Lemma decryptedRequests_at_resolved reqId d p s k :
  decryptedRequests_at (resolved reqId d p s) k =
    if decide (reqId = k)
    then {| demand := d; priority := p; processed := true |}
    else decryptedRequests_at s k.
Proof.
  unfold decryptedRequests_at, resolved. cbn [decryptedRequests log_event].
  destruct (contributed_frame "main_zone" (euint32_wrap d)
              (update_decryptedRequests reqId (set_processed true)
                 (update_decryptedRequests reqId (set_priority p)
                    (update_decryptedRequests reqId (set_demand d) s))))
    as (_ & _ & -> & _).
  unfold update_decryptedRequests, decryptedRequests_at. cbn.
  rewrite !lookup_insert. destruct (decide (reqId = k)); cbn; [|reflexivity].
  rewrite !decide_True by reflexivity. reflexivity.
Qed.

Lemma decryptedRequests_at_submitted t d p s k :
  decryptedRequests_at (submitted t d p s) k =
    if decide (requestCount s + 1 = k) then zero_DecryptedRequest
    else decryptedRequests_at s k.
Proof.
  unfold decryptedRequests_at, submitted. cbn.
  rewrite lookup_insert. destruct (decide (requestCount s + 1 = k)); reflexivity.
Qed.

(** *** Identifiers *)

Lemma submitted_ids_log_event e s :
  submitted_ids (log_event e s) = submitted_ids s ++ option_list (submitted_id e).
Proof.
  unfold submitted_ids. cbn. rewrite omap_app. cbn.
  destruct (submitted_id e); reflexivity.
Qed.

(** One call adds at most one id, the successor of the counter, and does
    so exactly when it is a submission that goes through. *)
Lemma step_submitted_ids c s :
  let fresh := is_submission c && succeeds c s in
  submitted_ids (step c s)
    = submitted_ids s ++ (if fresh then [requestCount s + 1] else []) /\
  requestCount (step c s) = requestCount s + (if fresh then 1 else 0).
Proof.
  destruct c as [t d p|reqId oracleId|decReqId cleartexts proof|zone oracleId|reqId cleartexts proof];
    unfold step, succeeds, call, dispatch; cbn [is_submission andb].
  - rewrite submitEncryptedRequest_run.
    destruct (requestCount s + 1 <=? MAX_UINT256); cbn.
    + split; [|reflexivity]. unfold submitted_ids, submitted. cbn.
      rewrite omap_app. reflexivity.
    + rewrite app_nil_r. split; [reflexivity|lia].
  - rewrite requestDecryption_run.
    destruct (processed (decryptedRequests_at s reqId)); cbn;
      rewrite ?app_nil_r; (split; [|unfold decryption_requested; cbn; lia]);
      [reflexivity|].
    unfold submitted_ids, decryption_requested. cbn.
    rewrite omap_app, app_nil_r. reflexivity.
  - rewrite decryptRequest_run. cbn zeta.
    destruct (requestToId_at s decReqId =? 0); cbn;
      [rewrite app_nil_r; split; [reflexivity|lia]|].
    destruct (processed (decryptedRequests_at s (requestToId_at s decReqId))); cbn;
      [rewrite app_nil_r; split; [reflexivity|lia]|].
    destruct (FHE_checkSignatures decReqId cleartexts proof); cbn;
      [|rewrite app_nil_r; split; [reflexivity|lia]].
    destruct (decode_uint32_pair cleartexts) as [[d p]|]; cbn;
      [|rewrite app_nil_r; split; [reflexivity|lia]].
    rewrite app_nil_r. unfold resolved.
    rewrite submitted_ids_log_event. cbn [submitted_id option_list].
    rewrite app_nil_r. cbn [requestCount log_event].
    match goal with |- context [contributed ?z ?a ?s'] =>
      destruct (contributed_frame z a s') as (-> & _);
      destruct (contributed_events z a s') as [v Hv] end.
    unfold submitted_ids. rewrite Hv, omap_app. cbn. rewrite app_nil_r.
    split; [reflexivity|lia].
  - rewrite requestAllocationDecryption_run.
    destruct (FHE_isInitialized (encryptedAllocation_at s zone)); cbn;
      rewrite app_nil_r; unfold allocation_decryption_requested;
      (split; [reflexivity|cbn; lia]).
  - destruct (decryptAllocation_run reqId cleartexts proof s) as [[e ->] | ->];
      cbn; rewrite app_nil_r; (split; [reflexivity|lia]).
Qed.

Lemma submissions_cons c rest s :
  submissions (c :: rest) s =
    (if is_submission c && succeeds c s then [c] else []) ++ submissions rest (step c s).
Proof.
  unfold submissions. cbn [successful]. rewrite List.filter_app.
  destruct (succeeds c s); cbn [List.filter];
    destruct (is_submission c); reflexivity.
Qed.

Lemma run_submitted_ids calls s :
  submitted_ids (run calls s)
    = submitted_ids s
      ++ ((fun i : nat => requestCount s + Z.of_nat i)
            <$> seq 1 (length (submissions calls s))) /\
  requestCount (run calls s)
    = requestCount s + Z.of_nat (length (submissions calls s)).
Proof.
  revert s. induction calls as [|c rest IH]; intros s.
  - cbn. rewrite app_nil_r. split; [reflexivity|lia].
  - cbn [run]. destruct (IH (step c s)) as [IHids IHcount].
    destruct (step_submitted_ids c s) as [Hids Hcount]. cbn zeta in *.
    rewrite IHids, IHcount, Hids, Hcount, submissions_cons.
    destruct (is_submission c && succeeds c s); cbn [app length].
    + split; [|lia]. rewrite <- app_assoc. f_equal.
      cbn [seq fmap list_fmap]. cbn [app]. f_equal; try lia.
      rewrite <- (seq_shift _ 1%nat).
      change (map S) with (fmap (M := list) S).
      rewrite <- list_fmap_compose.
      apply list_fmap_ext. intros _ i _. cbn. lia.
    + rewrite app_nil_r, Z.add_0_r. split; [reflexivity|lia].
Qed.

(** C7. From deployment, whatever calls are made in between, the ids
    given to the submissions that go through are exactly 1, 2, 3, ... in
    submission order; the counter equals their number; and 0 is never
    given out. *)
Theorem submitted_ids_sequential (calls : list Call) :
  let s := run calls init in
  let n := length (submissions calls init) in
  submitted_ids s = Z.of_nat <$> seq 1 n /\
  requestCount s = Z.of_nat n /\
  0 ∉ submitted_ids s.
Proof.
  cbn zeta. destruct (run_submitted_ids calls init) as [Hids Hcount].
  cbn in Hids, Hcount.
  assert (Hseq : submitted_ids (run calls init)
                 = Z.of_nat <$> seq 1 (length (submissions calls init))).
  { rewrite Hids. apply list_fmap_ext. intros _ i _. lia. }
  split; [exact Hseq|]. split; [exact Hcount|].
  rewrite Hseq. intros Hin. apply list_elem_of_fmap in Hin as (i & Hi & Hmem).
  apply list_elem_of_In, in_seq in Hmem. lia.
Qed.

(** *** The ledger of decrypted results *)

Lemma decryptedRequests_resolved_ne reqId d p s k :
  reqId <> k ->
  decryptedRequests (resolved reqId d p s) !! k = decryptedRequests s !! k.
Proof.
  intros Hne. unfold resolved. cbn [decryptedRequests log_event].
  match goal with |- context [contributed ?z ?a ?s'] =>
    destruct (contributed_frame z a s') as (_ & _ & -> & _) end.
  unfold update_decryptedRequests. cbn.
  rewrite !lookup_insert_ne by exact Hne. reflexivity.
Qed.

Lemma resolved_frame reqId d p s :
  requestCount (resolved reqId d p s) = requestCount s /\
  encryptedRequests (resolved reqId d p s) = encryptedRequests s /\
  requestToId (resolved reqId d p s) = requestToId s /\
  oracle (resolved reqId d p s) = oracle s.
Proof.
  unfold resolved. cbn [requestCount encryptedRequests requestToId oracle log_event].
  match goal with |- context [contributed ?z ?a ?s'] =>
    destruct (contributed_frame z a s') as (-> & -> & _ & -> & ->) end.
  cbn. auto.
Qed.

Lemma unresolved_zero_step c s : unresolved_zero s -> unresolved_zero (step c s).
Proof.
  intros Hs. apply step_cases; [exact Hs|..].
  - intros t d p _ _ k. rewrite decryptedRequests_at_submitted.
    destruct (decide (requestCount s + 1 = k)); [reflexivity|apply Hs].
  - intros reqId oracleId _ _ k. apply Hs.
  - intros decReqId cleartexts proof d p _ _ _ _ k.
    rewrite decryptedRequests_at_resolved.
    destruct (decide (requestToId_at s decReqId = k)); [discriminate|apply Hs].
  - intros zone oracleId _ _ k. apply Hs.
Qed.

Lemma unresolved_zero_run calls : unresolved_zero (run calls init).
Proof.
  apply run_invariant; [apply unresolved_zero_step|].
  intros k _. reflexivity.
Qed.

Lemma unissued_untouched_step c s :
  unissued_untouched s -> unissued_untouched (step c s).
Proof.
  intros Hs. apply step_cases; [exact Hs|..]; destruct Hs as (Hpos & Henc & Hzero).
  - intros t d p _ _. unfold unissued_untouched, issued, submitted. cbn.
    split; [lia|]. split.
    + intros k Hk. rewrite lookup_insert_ne by lia. apply Henc.
      unfold issued. lia.
    + rewrite lookup_insert_ne by lia. exact Hzero.
  - intros reqId oracleId _ _. split; [exact Hpos|]. split; [exact Henc|exact Hzero].
  - intros decReqId cleartexts proof d p _ Hne _ _.
    destruct (resolved_frame (requestToId_at s decReqId) d p s) as (Hc & He & _).
    unfold unissued_untouched, issued. rewrite Hc, He.
    split; [exact Hpos|]. split; [exact Henc|].
    rewrite decryptedRequests_resolved_ne by exact Hne. exact Hzero.
  - intros zone oracleId _ _. split; [exact Hpos|]. split; [exact Henc|exact Hzero].
Qed.

Lemma unissued_untouched_run calls : unissued_untouched (run calls init).
Proof.
  apply run_invariant; [apply unissued_untouched_step|].
  unfold unissued_untouched. cbn. split; [lia|]. split; [|reflexivity].
  intros k _. reflexivity.
Qed.

(** The processed flag follows the writes: it is set exactly when the
    latest of the submissions and resolutions of the id is a resolution. *)
Lemma slot_history_step c s :
  (forall k, processed (decryptedRequests_at s k)
             = default false (last (slot_history k s))) ->
  forall k, processed (decryptedRequests_at (step c s) k)
            = default false (last (slot_history k (step c s))).
Proof.
  intros Hs. apply step_cases; [exact Hs|..].
  - intros t d p _ _ k. rewrite decryptedRequests_at_submitted.
    unfold slot_history, submitted. cbn [events log_event write_decryptedRequests
      write_encryptedRequests set_requestCount].
    rewrite omap_app. cbn [omap list_omap slot_event].
    destruct (decide (requestCount s + 1 = k)) as [->|Hne].
    + rewrite Z.eqb_refl, last_snoc. reflexivity.
    + apply Z.eqb_neq in Hne. rewrite Hne, app_nil_r. apply Hs.
  - intros reqId oracleId _ _ k. unfold slot_history, decryption_requested.
    cbn [events log_event write_requestToId log_oracle].
    rewrite omap_app. cbn [omap list_omap slot_event]. rewrite app_nil_r. exact (Hs k).
  - intros decReqId cleartexts proof d p _ _ _ _ k.
    rewrite decryptedRequests_at_resolved.
    unfold slot_history, resolved. cbn [events log_event].
    match goal with |- context [contributed ?z ?a ?s'] =>
      destruct (contributed_events z a s') as [v ->] end.
    cbn [events update_decryptedRequests write_decryptedRequests].
    rewrite !omap_app. cbn [omap list_omap slot_event]. rewrite app_nil_r.
    destruct (decide (requestToId_at s decReqId = k)) as [->|Hne].
    + rewrite Z.eqb_refl, last_snoc. reflexivity.
    + apply Z.eqb_neq in Hne. rewrite Hne, app_nil_r. apply Hs.
  - intros zone oracleId _ _ k. exact (Hs k).
Qed.

Lemma slot_history_run calls k :
  processed (decryptedRequests_at (run calls init) k)
    = default false (last (slot_history k (run calls init))).
Proof.
  revert k.
  apply (run_invariant (fun s => forall k, processed (decryptedRequests_at s k)
                                           = default false (last (slot_history k s))));
    [apply slot_history_step|].
  intros k. reflexivity.
Qed.

Lemma slot_history_unresolved k s :
  k ∉ omap decrypted_id (events s) -> last (slot_history k s) <> Some true.
Proof.
  intros Hnot Hlast. apply Hnot.
  apply last_Some_elem_of in Hlast. unfold slot_history in Hlast.
  apply list_elem_of_omap in Hlast as (e & He & Hslot).
  apply list_elem_of_omap. exists e. split; [exact He|].
  destruct e as [id t|id|id|zone v]; cbn in Hslot |- *; try discriminate.
  - destruct (id =? k); discriminate.
  - destruct (id =? k) eqn:E; [|discriminate]. apply Z.eqb_eq in E. congruence.
Qed.

(** C2 (as amended). The read never fails, whatever the id: in every
    reachable state it answers the tuple stored under the id and changes
    nothing.  The flag of that tuple is set exactly when the latest of the
    submissions and resolutions of the id is a resolution.  So for an id
    with no resolution so far -- submitted and not yet resolved, or never
    issued -- and for an id submitted after its last resolution, the answer
    is (0, 0, false). *)
Theorem getDecryptedRequest_unresolved (calls : list Call) (reqId : Z) :
  let s := run calls init in
  let stored := decryptedRequests_at s reqId in
  call (getDecryptedRequest reqId) s
    = (Ok (demand stored, priority stored, processed stored), s) /\
  processed stored = default false (last (slot_history reqId s)) /\
  (reqId ∉ omap decrypted_id (events s) ->
   call (getDecryptedRequest reqId) s = (Ok (0, 0, false), s)) /\
  (last (slot_history reqId s) = Some false ->
   call (getDecryptedRequest reqId) s = (Ok (0, 0, false), s)).
Proof.
  cbn zeta.
  assert (Hzero : processed (decryptedRequests_at (run calls init) reqId) = false ->
            call (getDecryptedRequest reqId) (run calls init)
              = (Ok (0, 0, false), run calls init)).
  { intros Hp. unfold call, getDecryptedRequest, bind, gets, ret.
    rewrite (unresolved_zero_run calls reqId Hp). reflexivity. }
  split; [reflexivity|]. split; [apply slot_history_run|]. split.
  - intros Hnot. apply Hzero. rewrite slot_history_run.
    pose proof (slot_history_unresolved _ _ Hnot) as Hlast.
    destruct (last (slot_history reqId (run calls init))) as [[|]|];
      [congruence|reflexivity|reflexivity].
  - intros Hlast. apply Hzero. rewrite slot_history_run, Hlast. reflexivity.
Qed.

(** *** Resolution: checks before writes *)

Lemma decryptRequest_abort_unchanged decReqId cleartexts proof s e s_at :
  decryptRequest decReqId cleartexts proof s = Abort e s_at -> s_at = s.
Proof.
  rewrite decryptRequest_run. cbn zeta.
  destruct (requestToId_at s decReqId =? 0); [congruence|].
  destruct (processed (decryptedRequests_at s (requestToId_at s decReqId))); [congruence|].
  destruct (negb (FHE_checkSignatures decReqId cleartexts proof)); [congruence|].
  destruct (decode_uint32_pair cleartexts) as [[d p]|]; congruence.
Qed.

Lemma decryptedRequests_at_zero calls :
  decryptedRequests_at (run calls init) 0 = zero_DecryptedRequest.
Proof.
  destruct (unissued_untouched_run calls) as (_ & _ & H0).
  unfold decryptedRequests_at. rewrite H0. reflexivity.
Qed.

(** C5. In the resolution entry point every check comes before every
    write: whenever the body aborts, the state it had reached is the state
    it started from, and the caller sees that state with the error.  A
    rejected proof always aborts it.  Unless the abort is the
    already-processed one, the target's stored result still reads
    (0, 0, false). *)
Theorem decryptRequest_checks_precede_writes
    (calls : list Call) (decReqId : Z) (cleartexts proof : bytes) :
  let s := run calls init in
  (forall e s_at,
      decryptRequest decReqId cleartexts proof s = Abort e s_at ->
      s_at = s /\
      call (decryptRequest decReqId cleartexts proof) s = (Reverted e, s) /\
      (e <> Revert "Already decrypted" ->
       call (getDecryptedRequest (requestToId_at s decReqId)) s
         = (Ok (0, 0, false), s))) /\
  (FHE_checkSignatures decReqId cleartexts proof = false ->
   exists e, decryptRequest decReqId cleartexts proof s = Abort e s /\
             (e = Revert "Invalid request" \/ e = Revert "Already decrypted" \/
              e = InvalidProof)).
Proof.
  cbn zeta. split.
  - intros e s_at Habort.
    pose proof (decryptRequest_abort_unchanged _ _ _ _ _ _ Habort) as ->.
    split; [reflexivity|]. split; [unfold call; rewrite Habort; reflexivity|].
    intros Hnot. revert Habort. rewrite decryptRequest_run. cbn zeta.
    destruct (requestToId_at (run calls init) decReqId =? 0) eqn:E0.
    { intros _. apply Z.eqb_eq in E0. rewrite E0.
      unfold call, getDecryptedRequest, bind, gets, ret.
      rewrite decryptedRequests_at_zero. reflexivity. }
    destruct (processed (decryptedRequests_at (run calls init)
                           (requestToId_at (run calls init) decReqId))) eqn:E1;
      [congruence|].
    intros _. unfold call, getDecryptedRequest, bind, gets, ret.
    rewrite (unresolved_zero_run calls _ E1). reflexivity.
  - intros Hrej. rewrite decryptRequest_run. cbn zeta. rewrite Hrej. cbn [negb].
    destruct (requestToId_at (run calls init) decReqId =? 0); [eauto|].
    destruct (processed _); eauto.
Qed.

(** *** The correlation table *)

Lemma requestToId_step_None c s k :
  requestToId s !! k = None ->
  (succeeds c s = true -> issued_callback c <> Some k) ->
  requestToId (step c s) !! k = None.
Proof.
  intros Hk.
  destruct c as [t d p|reqId oracleId|decReqId cleartexts proof|zone oracleId|reqId cleartexts proof];
    unfold step, succeeds, call, dispatch; cbn [issued_callback].
  - intros _. rewrite submitEncryptedRequest_run.
    destruct (requestCount s + 1 <=? MAX_UINT256); exact Hk.
  - rewrite requestDecryption_run.
    destruct (processed (decryptedRequests_at s reqId)); intros Hc; [exact Hk|].
    unfold decryption_requested. cbn.
    rewrite lookup_insert_ne; [exact Hk|]. intros ->. exact (Hc eq_refl eq_refl).
  - intros _. apply (step_cases (fun s' => requestToId s' !! k = None)
                       (DecryptRequest decReqId cleartexts proof)); try (intros; discriminate).
    + exact Hk.
    + intros decReqId' cleartexts' proof' d p _ _ _ _.
      destruct (resolved_frame (requestToId_at s decReqId') d p s) as (_ & _ & -> & _).
      exact Hk.
  - rewrite requestAllocationDecryption_run.
    destruct (FHE_isInitialized (encryptedAllocation_at s zone)); intros Hc; [|exact Hk].
    unfold allocation_decryption_requested. cbn.
    rewrite lookup_insert_ne; [exact Hk|]. intros ->. exact (Hc eq_refl eq_refl).
  - intros _.
    destruct (decryptAllocation_run reqId cleartexts proof s) as [[e ->] | ->]; exact Hk.
Qed.

Lemma registered_callbacks_cons c rest s :
  registered_callbacks (c :: rest) s =
    (if succeeds c s then option_list (issued_callback c) else [])
    ++ registered_callbacks rest (step c s).
Proof.
  unfold registered_callbacks. cbn [successful]. rewrite omap_app.
  destruct (succeeds c s); cbn; [|reflexivity].
  destruct (issued_callback c); reflexivity.
Qed.

(** A callback id that was never registered has no entry. *)
Lemma requestToId_run_None calls s k :
  requestToId s !! k = None ->
  k ∉ registered_callbacks calls s ->
  requestToId (run calls s) !! k = None.
Proof.
  revert s. induction calls as [|c rest IH]; intros s Hk Hnot; cbn; [exact Hk|].
  rewrite registered_callbacks_cons in Hnot.
  apply IH.
  - apply requestToId_step_None; [exact Hk|].
    intros Hs Hc. apply Hnot. rewrite Hs, Hc. cbn. left.
  - intros Hin. apply Hnot. apply elem_of_app. right. exact Hin.
Qed.

(** C8. A callback id that was never registered -- no decryption request
    that went through was answered with it -- has no entry in the
    correlation table, and the resolution entry point called with it fails
    with "Invalid request", leaving the whole state as it was. *)
Theorem decryptRequest_unregistered
    (calls : list Call) (decReqId : Z) (cleartexts proof : bytes) :
  decReqId ∉ registered_callbacks calls init ->
  let s := run calls init in
  requestToId s !! decReqId = None /\
  decryptRequest decReqId cleartexts proof s = Abort (Revert "Invalid request") s /\
  call (decryptRequest decReqId cleartexts proof) s
    = (Reverted (Revert "Invalid request"), s).
Proof.
  intros Hnot. cbn zeta.
  assert (Hk : requestToId (run calls init) !! decReqId = None).
  { apply requestToId_run_None; [reflexivity|exact Hnot]. }
  assert (Habort : decryptRequest decReqId cleartexts proof (run calls init)
                   = Abort (Revert "Invalid request") (run calls init)).
  { rewrite decryptRequest_run. cbn zeta. unfold requestToId_at. rewrite Hk. reflexivity. }
  split; [exact Hk|]. split; [exact Habort|].
  unfold call. rewrite Habort. reflexivity.
Qed.

(** *** Resolution happens once *)

Lemma processed_step c s k :
  issued s k /\ processed (decryptedRequests_at s k) = true ->
  issued (step c s) k /\ processed (decryptedRequests_at (step c s) k) = true.
Proof.
  intros Hs. apply step_cases; [exact Hs|..]; destruct Hs as [Hissued Hp].
  - intros t d p _ _. split.
    + unfold issued, submitted in *. cbn. lia.
    + rewrite decryptedRequests_at_submitted.
      rewrite decide_False by (unfold issued in Hissued; lia). exact Hp.
  - intros reqId oracleId _ _. split; [exact Hissued|exact Hp].
  - intros decReqId cleartexts proof d p _ _ _ _. split.
    + unfold issued.
      destruct (resolved_frame (requestToId_at s decReqId) d p s) as (-> & _).
      exact Hissued.
    + rewrite decryptedRequests_at_resolved.
      destruct (decide (requestToId_at s decReqId = k)); [reflexivity|exact Hp].
  - intros zone oracleId _ _. split; [exact Hissued|exact Hp].
Qed.

Lemma decryptRequest_done_inv decReqId cleartexts proof s s1 :
  call (decryptRequest decReqId cleartexts proof) s = (Ok tt, s1) ->
  requestToId_at s decReqId <> 0 /\
  processed (decryptedRequests_at s (requestToId_at s decReqId)) = false /\
  FHE_checkSignatures decReqId cleartexts proof = true /\
  exists d p, decode_uint32_pair cleartexts = Some (d, p) /\
              s1 = resolved (requestToId_at s decReqId) d p s.
Proof.
  unfold call. rewrite decryptRequest_run. cbn zeta.
  destruct (requestToId_at s decReqId =? 0) eqn:E0; [discriminate|].
  destruct (processed (decryptedRequests_at s (requestToId_at s decReqId))); [discriminate|].
  destruct (FHE_checkSignatures decReqId cleartexts proof); cbn [negb]; [|discriminate].
  destruct (decode_uint32_pair cleartexts) as [[d p]|]; [|discriminate].
  intros [= <-]. split; [lia|]. split; [reflexivity|]. split; [reflexivity|]. eauto.
Qed.

Lemma decryptRequest_processed decReqId cleartexts proof s :
  requestToId_at s decReqId <> 0 ->
  processed (decryptedRequests_at s (requestToId_at s decReqId)) = true ->
  call (decryptRequest decReqId cleartexts proof) s
    = (Reverted (Revert "Already decrypted"), s).
Proof.
  intros Hne Hp. unfold call. rewrite decryptRequest_run. cbn zeta.
  destruct (requestToId_at s decReqId =? 0) eqn:E0; [lia|].
  rewrite Hp. reflexivity.
Qed.

(** C4. Once a resolution has gone through, the target is marked
    processed (it was not before), and every further resolution aimed at
    the same request -- the same callback replayed, or another callback
    correlated to it -- fails with "Already decrypted" and leaves the
    state exactly as the first resolution left it.  For an issued request
    this stays so after any further calls: the flag never returns to
    false, so it is raised at most once. *)
Theorem second_resolution_fails
    (s s1 : State) (decReqId : Z) (cleartexts proof : bytes) :
  call (decryptRequest decReqId cleartexts proof) s = (Ok tt, s1) ->
  let reqId := requestToId_at s decReqId in
  processed (decryptedRequests_at s reqId) = false /\
  processed (decryptedRequests_at s1 reqId) = true /\
  requestToId_at s1 decReqId = reqId /\
  (forall decReqId' cleartexts' proof',
      requestToId_at s1 decReqId' = reqId ->
      call (decryptRequest decReqId' cleartexts' proof') s1
        = (Reverted (Revert "Already decrypted"), s1)) /\
  (issued s1 reqId ->
   forall calls,
     let s2 := run calls s1 in
     processed (decryptedRequests_at s2 reqId) = true /\
     forall decReqId' cleartexts' proof',
       requestToId_at s2 decReqId' = reqId ->
       call (decryptRequest decReqId' cleartexts' proof') s2
         = (Reverted (Revert "Already decrypted"), s2)).
Proof.
  intros Hcall. cbn zeta.
  destruct (decryptRequest_done_inv _ _ _ _ _ Hcall) as (Hne & Hp & _ & d & p & _ & ->).
  set (reqId := requestToId_at s decReqId) in *.
  assert (Hp1 : processed (decryptedRequests_at (resolved reqId d p s) reqId) = true).
  { rewrite decryptedRequests_at_resolved, decide_True by reflexivity. reflexivity. }
  split; [exact Hp|]. split; [exact Hp1|]. split; [|split].
  - unfold requestToId_at.
    destruct (resolved_frame reqId d p s) as (_ & _ & -> & _). reflexivity.
  - intros decReqId' cleartexts' proof' Heq.
    apply decryptRequest_processed; rewrite Heq; [exact Hne|exact Hp1].
  - intros Hissued calls.
    assert (Hinv : issued (run calls (resolved reqId d p s)) reqId /\
                   processed (decryptedRequests_at
                                (run calls (resolved reqId d p s)) reqId) = true).
    { apply (run_invariant
               (fun s' => issued s' reqId /\
                          processed (decryptedRequests_at s' reqId) = true)).
      - intros c s'. apply processed_step.
      - split; [exact Hissued|exact Hp1]. }
    destruct Hinv as [_ Hp2]. split; [exact Hp2|].
    intros decReqId' cleartexts' proof' Heq.
    apply decryptRequest_processed; rewrite Heq; [exact Hne|exact Hp2].
Qed.

(** *** Registering a correlation *)

Lemma requestToId_step_kept c s k :
  is_Some (requestToId s !! k) -> is_Some (requestToId (step c s) !! k).
Proof.
  intros Hk. apply step_cases; [exact Hk|..].
  - intros t d p _ _. exact Hk.
  - intros reqId oracleId _ _. unfold decryption_requested. cbn.
    rewrite lookup_insert. destruct (decide (oracleId = k)); [eauto|exact Hk].
  - intros decReqId cleartexts proof d p _ _ _ _.
    destruct (resolved_frame (requestToId_at s decReqId) d p s) as (_ & _ & -> & _).
    exact Hk.
  - intros zone oracleId _ _. unfold allocation_decryption_requested. cbn.
    rewrite lookup_insert. destruct (decide (oracleId = k)); [eauto|exact Hk].
Qed.

Lemma step_oracle c s :
  oracle_id <$> oracle (step c s)
    = (oracle_id <$> oracle s)
      ++ (if succeeds c s then option_list (issued_callback c) else []).
Proof.
  destruct c as [t d p|reqId oracleId|decReqId cleartexts proof|zone oracleId|reqId cleartexts proof];
    unfold step, succeeds, call, dispatch; cbn [issued_callback option_list].
  - rewrite submitEncryptedRequest_run.
    destruct (requestCount s + 1 <=? MAX_UINT256); cbn; rewrite app_nil_r; reflexivity.
  - rewrite requestDecryption_run.
    destruct (processed (decryptedRequests_at s reqId)); cbn;
      [rewrite app_nil_r; reflexivity|].
    unfold decryption_requested. cbn. rewrite fmap_app. reflexivity.
  - rewrite decryptRequest_run. cbn zeta.
    destruct (requestToId_at s decReqId =? 0); cbn; [rewrite app_nil_r; reflexivity|].
    destruct (processed (decryptedRequests_at s (requestToId_at s decReqId))); cbn;
      [rewrite app_nil_r; reflexivity|].
    destruct (FHE_checkSignatures decReqId cleartexts proof); cbn;
      [|rewrite app_nil_r; reflexivity].
    destruct (decode_uint32_pair cleartexts) as [[d p]|]; cbn;
      [|rewrite app_nil_r; reflexivity].
    destruct (resolved_frame (requestToId_at s decReqId) d p s) as (_ & _ & _ & ->).
    rewrite app_nil_r. reflexivity.
  - rewrite requestAllocationDecryption_run.
    destruct (FHE_isInitialized (encryptedAllocation_at s zone)); cbn;
      [|rewrite app_nil_r; reflexivity].
    unfold allocation_decryption_requested. cbn. rewrite fmap_app. reflexivity.
  - destruct (decryptAllocation_run reqId cleartexts proof s) as [[e ->] | ->];
      cbn; rewrite app_nil_r; reflexivity.
Qed.

(** What one call leaves under a callback id. *)
Lemma requestToId_at_step c s k :
  requestToId_at (step c s) k =
    match (if succeeds c s then registration c else None) with
    | Some (oracleId, target) => if oracleId =? k then target else requestToId_at s k
    | None => requestToId_at s k
    end.
Proof.
  destruct c as [t d p|reqId oracleId|decReqId cleartexts proof|zone oracleId|reqId cleartexts proof];
    unfold step, succeeds, call, dispatch; cbn [registration].
  - rewrite submitEncryptedRequest_run.
    destruct (requestCount s + 1 <=? MAX_UINT256); reflexivity.
  - rewrite requestDecryption_run.
    destruct (processed (decryptedRequests_at s reqId)); cbn; [reflexivity|].
    unfold requestToId_at, decryption_requested. cbn.
    destruct (Z.eqb_spec oracleId k) as [->|Hne].
    + rewrite lookup_insert_eq. reflexivity.
    + rewrite lookup_insert_ne by exact Hne. reflexivity.
  - rewrite decryptRequest_run. cbn zeta.
    destruct (requestToId_at s decReqId =? 0); cbn; [reflexivity|].
    destruct (processed (decryptedRequests_at s (requestToId_at s decReqId))); cbn;
      [reflexivity|].
    destruct (FHE_checkSignatures decReqId cleartexts proof); cbn; [|reflexivity].
    destruct (decode_uint32_pair cleartexts) as [[d p]|]; cbn; [|reflexivity].
    destruct (resolved_frame (requestToId_at s decReqId) d p s) as (_ & _ & Hr & _).
    unfold requestToId_at at 1. rewrite Hr. reflexivity.
  - rewrite requestAllocationDecryption_run.
    destruct (FHE_isInitialized (encryptedAllocation_at s zone)); cbn; [|reflexivity].
    unfold requestToId_at, allocation_decryption_requested. cbn.
    destruct (Z.eqb_spec oracleId k) as [->|Hne].
    + rewrite lookup_insert_eq. reflexivity.
    + rewrite lookup_insert_ne by exact Hne. reflexivity.
  - destruct (decryptAllocation_run reqId cleartexts proof s) as [[e ->] | ->];
      reflexivity.
Qed.

(** The stores of lines 68 and 120 themselves are unconditional: against
    a library that hands out an id whatever it is, a decryption request
    stores callback id -> domain id whether or not the callback id is
    already there.  That a callback id correlates to one domain id rests on
    where the id comes from. *)
Lemma registration_store_unconditional (s : State) (oracleId : Z) :
  (forall reqId,
      processed (decryptedRequests_at s reqId) = false ->
      exists s', call (requestDecryption reqId oracleId) s = (Ok tt, s') /\
                 requestToId s' = <[oracleId := reqId]> (requestToId s)) /\
  (forall zone,
      FHE_isInitialized (encryptedAllocation_at s zone) = true ->
      exists s', call (requestAllocationDecryption zone oracleId) s = (Ok tt, s') /\
                 requestToId s'
                   = <[oracleId := bytes32ToUint (keccak256_packed zone)]> (requestToId s)) /\
  (forall c k, is_Some (requestToId s !! k) -> is_Some (requestToId (step c s) !! k)).
Proof.
  split; [|split].
  - intros reqId Hp. exists (decryption_requested reqId oracleId s).
    unfold call. rewrite requestDecryption_run, Hp. split; reflexivity.
  - intros zone Hz. exists (allocation_decryption_requested zone oracleId s).
    unfold call. rewrite requestAllocationDecryption_run, Hz. split; reflexivity.
  - intros c k. apply requestToId_step_kept.
Qed.

(** Against the library of the source's own model the entry points taken
    with a library are the entry points. *)
Lemma run_via_plain calls s : run_via FHE_requestDecryption calls s = run calls s.
Proof.
  revert s. induction calls as [|c rest IH]; intros s; [reflexivity|].
  cbn [run_via run]. rewrite IH. f_equal. destruct c; reflexivity.
Qed.









(** *** Requests in flight *)

Lemma requestDecryption_done_inv reqId oracleId s s1 :
  call (requestDecryption reqId oracleId) s = (Ok tt, s1) ->
  processed (decryptedRequests_at s reqId) = false /\
  s1 = decryption_requested reqId oracleId s.
Proof.
  unfold call. rewrite requestDecryption_run.
  destruct (processed (decryptedRequests_at s reqId)); [discriminate|].
  intros [= <-]. split; reflexivity.
Qed.

(** C6 (as amended). The guard of [requestDecryption] reads the processed
    flag and nothing else.  So while a first request is in flight a second
    one for the same id is accepted: it sends the same ciphertexts to the
    oracle again and registers a second correlation to the same target,
    and both are outstanding.  A request is rejected, with
    "Already decrypted", exactly when its target is marked processed. *)
Theorem requestDecryption_in_flight_accepted
    (s s1 : State) (reqId oracleId1 oracleId2 : Z) :
  call (requestDecryption reqId oracleId1) s = (Ok tt, s1) ->
  (exists s2,
      call (requestDecryption reqId oracleId2) s1 = (Ok tt, s2) /\
      requestToId s2 = <[oracleId2 := reqId]> (<[oracleId1 := reqId]> (requestToId s)) /\
      exists ciphertexts,
        oracle s2 = oracle s
                    ++ [ {| oracle_id := oracleId1; oracle_ciphertexts := ciphertexts;
                            oracle_callback := decryptRequest_selector |};
                         {| oracle_id := oracleId2; oracle_ciphertexts := ciphertexts;
                            oracle_callback := decryptRequest_selector |} ]) /\
  (forall s' reqId' oracleId',
      processed (decryptedRequests_at s' reqId') = true <->
      call (requestDecryption reqId' oracleId') s'
        = (Reverted (Revert "Already decrypted"), s')).
Proof.
  intros Hcall. destruct (requestDecryption_done_inv _ _ _ _ Hcall) as [Hp ->].
  split.
  - exists (decryption_requested reqId oracleId2 (decryption_requested reqId oracleId1 s)).
    split; [|split].
    + unfold call. rewrite requestDecryption_run.
      change (decryptedRequests_at (decryption_requested reqId oracleId1 s) reqId)
        with (decryptedRequests_at s reqId).
      rewrite Hp. reflexivity.
    + reflexivity.
    + eexists. unfold decryption_requested. cbn. rewrite <- app_assoc. reflexivity.
  - intros s' reqId' oracleId'. unfold call. rewrite requestDecryption_run.
    destruct (processed (decryptedRequests_at s' reqId')); split;
      intros H; try reflexivity; discriminate.
Qed.

(** *** Reading a zone *)

Lemma only_main_zone_step c s : only_main_zone s -> only_main_zone (step c s).
Proof.
  intros Hs. apply step_cases; [exact Hs|..].
  - intros t d p _ _. exact Hs.
  - intros reqId oracleId _ _. exact Hs.
  - intros decReqId cleartexts proof d p _ _ _ _ zone Hzone.
    unfold resolved, contributed, update_decryptedRequests. cbn.
    destruct (FHE_isInitialized _); cbn;
      rewrite ?lookup_insert_ne by congruence; apply Hs, Hzone.
  - intros zone oracleId _ _. exact Hs.
Qed.

Lemma only_main_zone_run calls : only_main_zone (run calls init).
Proof.
  apply run_invariant; [apply only_main_zone_step|].
  intros zone _. reflexivity.
Qed.

Lemma encryptedAllocation_at_contributed zone additional s :
  encryptedAllocation_at (contributed zone additional s) zone =
    FHE_add (if FHE_isInitialized (encryptedAllocation_at s zone)
             then encryptedAllocation_at s zone else FHE_asEuint32 0)
            additional.
Proof.
  unfold contributed, encryptedAllocation_at.
  destruct (FHE_isInitialized (default (euint32_wrap 0) (encryptedAllocation s !! zone)));
    cbn; rewrite ?lookup_insert_eq; reflexivity.
Qed.

(** C9 (as amended). Reading a zone's encrypted total never fails: it
    answers what the mapping holds.  After a contribution that is the
    running total, the sum of the earlier total (or of a fresh encrypted
    zero, if there was none) and the amount added.  For a zone that no
    contribution has initialized -- any zone before the first resolution,
    and every zone but "main_zone" at all times -- it is the zero handle
    of an unwritten slot, returned without error. *)
Theorem getEncryptedAllocation_total (s : State) (zone : string) :
  call (getEncryptedAllocation zone) s = (Ok (encryptedAllocation_at s zone), s) /\
  (forall additional s',
      updateZoneAllocation zone additional s = Done tt s' ->
      call (getEncryptedAllocation zone) s'
        = (Ok (FHE_add (if FHE_isInitialized (encryptedAllocation_at s zone)
                        then encryptedAllocation_at s zone else FHE_asEuint32 0)
                       additional), s')) /\
  (encryptedAllocation s !! zone = None ->
   call (getEncryptedAllocation zone) s = (Ok (euint32_wrap 0), s)) /\
  (forall calls,
      zone <> "main_zone" ->
      call (getEncryptedAllocation zone) (run calls init)
        = (Ok (euint32_wrap 0), run calls init)).
Proof.
  split; [reflexivity|]. split; [|split].
  - intros additional s'. rewrite updateZoneAllocation_run. intros [= <-].
    unfold call, getEncryptedAllocation, gets.
    rewrite encryptedAllocation_at_contributed. reflexivity.
  - intros Hnone. unfold call, getEncryptedAllocation, gets, encryptedAllocation_at.
    rewrite Hnone. reflexivity.
  - intros calls Hzone.
    unfold call, getEncryptedAllocation, gets, encryptedAllocation_at.
    rewrite (only_main_zone_run calls zone Hzone). reflexivity.
Qed.

(** *** Requests that were never submitted *)

(** C10 (as amended). [requestDecryption] does not check that the id was
    ever issued.  For an id no submission was given -- 0 included -- the
    call goes through as long as no resolution has marked that id
    processed, which for id 0 is always: it sends the two zero handles of
    the unwritten request to the oracle and registers the callback for the
    nonexistent request. *)
Theorem requestDecryption_unissued (calls : list Call) (reqId oracleId : Z) :
  let s := run calls init in
  ~ issued s reqId ->
  reqId = 0 \/ processed (decryptedRequests_at s reqId) = false ->
  exists s',
    call (requestDecryption reqId oracleId) s = (Ok tt, s') /\
    requestToId s' !! oracleId = Some reqId /\
    oracle s' = oracle s
                ++ [ {| oracle_id := oracleId;
                        oracle_ciphertexts := [FHE_toBytes32 (euint32_wrap 0);
                                               FHE_toBytes32 (euint32_wrap 0)];
                        oracle_callback := decryptRequest_selector |} ].
Proof.
  cbn zeta. intros Hnot Hfree.
  assert (Hp : processed (decryptedRequests_at (run calls init) reqId) = false).
  { destruct Hfree as [-> | Hp]; [|exact Hp].
    rewrite decryptedRequests_at_zero. reflexivity. }
  destruct (unissued_untouched_run calls) as (_ & Henc & _).
  exists (decryption_requested reqId oracleId (run calls init)).
  split; [|split].
  - unfold call. rewrite requestDecryption_run, Hp. reflexivity.
  - unfold decryption_requested. cbn. apply lookup_insert_eq.
  - unfold decryption_requested, encryptedRequests_at. cbn.
    rewrite (Henc reqId Hnot). reflexivity.
Qed.

(** *** Accumulation *)

Lemma be_word_nonneg bs : 0 <= be_word bs.
Proof.
  unfold be_word.
  assert (H : forall acc, 0 <= acc ->
              0 <= fold_left (fun a b => a * 256 + byte_val b) bs acc).
  { induction bs as [|b rest IH]; intros acc Hacc; cbn; [exact Hacc|].
    apply IH. unfold byte_val. pose proof (N2Z.is_nonneg (Byte.to_N b)). lia. }
  apply H. lia.
Qed.

Lemma decode_uint32_range w v : decode_uint32 w = Some v -> v = w /\ w <= MAX_UINT32.
Proof.
  unfold decode_uint32. destruct (w <=? MAX_UINT32) eqn:E; [|discriminate].
  intros [= <-]. split; [reflexivity|lia].
Qed.

Lemma decode_uint32_pair_range data d p :
  decode_uint32_pair data = Some (d, p) ->
  0 <= d <= MAX_UINT32 /\ 0 <= p <= MAX_UINT32.
Proof.
  unfold decode_uint32_pair. destruct (length data <? 64)%nat; [discriminate|].
  destruct (decode_uint32 (word_at 0 data)) as [a|] eqn:Ea; [|discriminate].
  destruct (decode_uint32 (word_at 1 data)) as [b|] eqn:Eb; [|discriminate].
  intros [= <- <-].
  apply decode_uint32_range in Ea as [-> Ha], Eb as [-> Hb].
  pose proof (be_word_nonneg (take 32 (drop (32 * 0) data))).
  pose proof (be_word_nonneg (take 32 (drop (32 * 1) data))).
  unfold word_at in *. lia.
Qed.

Lemma revealed_demand_range c d :
  revealed_demand c = Some d -> 0 <= d <= MAX_UINT32.
Proof.
  destruct c; cbn; try discriminate.
  destruct (decode_uint32_pair cleartexts) as [[d' p]|] eqn:E; cbn; [|discriminate].
  intros [= <-]. apply (decode_uint32_pair_range _ _ _ E).
Qed.

Lemma sum_demands_app ds1 ds2 :
  sum_demands (ds1 ++ ds2) = sum_demands ds1 + sum_demands ds2.
Proof.
  unfold sum_demands. induction ds1 as [|d rest IH]; cbn; [reflexivity|].
  rewrite IH. lia.
Qed.

Lemma resolved_demands_cons c rest s :
  resolved_demands (c :: rest) s =
    (if succeeds c s then option_list (revealed_demand c) else [])
    ++ resolved_demands rest (step c s).
Proof.
  unfold resolved_demands. cbn [successful]. rewrite omap_app.
  destruct (succeeds c s); cbn; [|reflexivity].
  destruct (revealed_demand c); reflexivity.
Qed.

Lemma resolved_demands_nonneg calls s : 0 <= sum_demands (resolved_demands calls s).
Proof.
  revert s. induction calls as [|c rest IH]; intros s; [cbn; lia|].
  rewrite resolved_demands_cons, sum_demands_app.
  specialize (IH (step c s)).
  destruct (succeeds c s); cbn; [|lia].
  destruct (revealed_demand c) as [d|] eqn:E; cbn; [|lia].
  apply revealed_demand_range in E. lia.
Qed.

Section Accumulation.

Context (laws : FHELaws fhe).

Lemma zones_initialized_step c s : zones_initialized s -> zones_initialized (step c s).
Proof.
  intros Hs. apply step_cases; [exact Hs|..].
  - intros t d p _ _. exact Hs.
  - intros reqId oracleId _ _. exact Hs.
  - intros decReqId cleartexts proof d p _ _ _ _ zone h.
    unfold resolved, contributed, update_decryptedRequests. cbn.
    destruct (FHE_isInitialized _); cbn; rewrite lookup_insert;
      (destruct (decide ("main_zone" = zone));
       [intros [= <-]; apply isInitialized_add|]).
    + apply Hs.
    + rewrite lookup_insert, decide_False by assumption. apply Hs.
  - intros zone oracleId _ _. exact Hs.
Qed.

Lemma zone_total_small s zone :
  zone_total s zone = (zone_total s zone + 0) mod 2 ^ 32.
Proof.
  unfold zone_total.
  pose proof (decrypt_range (encryptedAllocation_at s zone)) as Hr.
  unfold MAX_UINT32 in Hr. rewrite Z.add_0_r, Z.mod_small by lia. reflexivity.
Qed.

(** One call changes the handle of "main_zone" exactly when it is a
    resolution that goes through, and then by one merge. *)
Lemma step_total c s :
  encryptedAllocation_at (step c s) "main_zone" =
    match (if succeeds c s then revealed_demand c else None) with
    | Some d =>
        merge_demand
          (if FHE_isInitialized (encryptedAllocation_at s "main_zone")
           then encryptedAllocation_at s "main_zone" else FHE_asEuint32 0) d
    | None => encryptedAllocation_at s "main_zone"
    end.
Proof.
  destruct c as [t d p|reqId oracleId|decReqId cleartexts proof|zone oracleId|reqId cleartexts proof];
    unfold step, succeeds, call, dispatch; cbn [revealed_demand].
  - rewrite submitEncryptedRequest_run.
    destruct (requestCount s + 1 <=? MAX_UINT256); reflexivity.
  - rewrite requestDecryption_run.
    destruct (processed (decryptedRequests_at s reqId)); reflexivity.
  - rewrite decryptRequest_run. cbn zeta.
    destruct (requestToId_at s decReqId =? 0); cbn; [reflexivity|].
    destruct (processed (decryptedRequests_at s (requestToId_at s decReqId))); cbn;
      [reflexivity|].
    destruct (FHE_checkSignatures decReqId cleartexts proof); cbn; [|reflexivity].
    destruct (decode_uint32_pair cleartexts) as [[d p]|] eqn:E; cbn; [|reflexivity].
    unfold resolved.
    change (encryptedAllocation_at (log_event ?e ?s') ?z)
      with (encryptedAllocation_at s' z).
    rewrite encryptedAllocation_at_contributed. reflexivity.
  - rewrite requestAllocationDecryption_run.
    destruct (FHE_isInitialized (encryptedAllocation_at s zone)); reflexivity.
  - destruct (decryptAllocation_run reqId cleartexts proof s) as [[e ->] | ->];
      reflexivity.
Qed.

(** Over a trace the handle is the first total the trace met, with one
    merge per resolution that went through, in order. *)
Lemma run_total calls s :
  encryptedAllocation_at (run calls s) "main_zone" =
    match resolved_demands calls s with
    | [] => encryptedAllocation_at s "main_zone"
    | ds =>
        fold_left merge_demand ds
          (if FHE_isInitialized (encryptedAllocation_at s "main_zone")
           then encryptedAllocation_at s "main_zone" else FHE_asEuint32 0)
    end.
Proof.
  revert s. induction calls as [|c rest IH]; intros s; [reflexivity|].
  cbn [run]. rewrite resolved_demands_cons, IH, step_total.
  destruct (if succeeds c s then revealed_demand c else None) as [d|] eqn:E.
  - assert (Hhead : (if succeeds c s then option_list (revealed_demand c) else []) = [d]).
    { destruct (succeeds c s); [|discriminate]. rewrite E. reflexivity. }
    rewrite Hhead. cbn [app fold_left].
    set (start := if FHE_isInitialized (encryptedAllocation_at s "main_zone")
                  then encryptedAllocation_at s "main_zone" else FHE_asEuint32 0).
    assert (Hinit : FHE_isInitialized (merge_demand start d) = true)
      by apply isInitialized_add.
    rewrite Hinit.
    destruct (resolved_demands rest (step c s)); reflexivity.
  - assert (Hhead : (if succeeds c s then option_list (revealed_demand c) else []) = []).
    { destruct (succeeds c s); [rewrite E|]; reflexivity. }
    rewrite Hhead. reflexivity.
Qed.

Lemma decrypt_merged ds h :
  FHE_decrypt (fold_left merge_demand ds h)
    = (FHE_decrypt h + sum_demands (merged_plaintext <$> ds)) mod 2 ^ 32.
Proof.
  revert h. induction ds as [|d rest IH]; intros h; cbn.
  - pose proof (decrypt_range h) as Hr. unfold MAX_UINT32 in Hr.
    rewrite Z.add_0_r, Z.mod_small by lia. reflexivity.
  - rewrite IH. unfold merge_demand at 1. rewrite decrypt_add.
    rewrite Z.add_mod_idemp_l by lia. f_equal.
    unfold sum_demands, merged_plaintext. cbn. lia.
Qed.

Lemma resolved_demands_range calls s :
  Forall (fun d => 0 <= d <= MAX_UINT32) (resolved_demands calls s).
Proof.
  unfold resolved_demands.
  induction (successful calls s) as [|c rest IH]; cbn; [constructor|].
  destruct (revealed_demand c) as [d|] eqn:E; [|exact IH].
  constructor; [apply (revealed_demand_range _ _ E)|exact IH].
Qed.

(** The zero handle of an unwritten slot is the uninitialized one. *)
Hypothesis zero_uninitialized : FHE_isInitialized (euint32_wrap 0) = false.

(** C1 (as amended). Take a library under the laws [FHELaws] in which
    the zero handle, which an unwritten slot reads as, is uninitialized.
    From deployment, after any calls of which at least one resolution went
    through, the total of "main_zone" is the library's encryption of zero
    with one handle merged by [FHE.add] per resolution that went through,
    each once and in order; the handle merged for a
    revealed demand d is the conversion [euint32(d)].  Once decrypted the
    total is therefore the sum, modulo 2^32, of what those handles decrypt
    to.  Where the conversion of a [uint32] decrypts to that value, this is
    the sum of the demands modulo 2^32, and the sum itself when it fits in
    32 bits.  Whatever the handles decrypt to, the total differs from the
    sum of the demands when that sum does not fit in 32 bits. *)
Theorem zone_total_is_sum_mod (calls : list Call) :
  let demands := resolved_demands calls init in
  let s := run calls init in
  (demands <> [] ->
   encryptedAllocation_at s "main_zone" = merged_total demands /\
   zone_total s "main_zone" = sum_demands (merged_plaintext <$> demands) mod 2 ^ 32) /\
  ((forall d, 0 <= d <= MAX_UINT32 -> merged_plaintext d = d) ->
   zone_total s "main_zone" = sum_demands demands mod 2 ^ 32 /\
   (sum_demands demands <= MAX_UINT32 ->
    zone_total s "main_zone" = sum_demands demands)) /\
  (MAX_UINT32 < sum_demands demands ->
   zone_total s "main_zone" <> sum_demands demands).
Proof.
  cbn zeta.
  assert (Hhandle : resolved_demands calls init <> [] ->
            encryptedAllocation_at (run calls init) "main_zone"
              = merged_total (resolved_demands calls init)).
  { intros Hne. rewrite run_total.
    destruct (resolved_demands calls init) as [|d rest]; [congruence|].
    unfold encryptedAllocation_at at 1 2. cbn [encryptedAllocation init].
    rewrite lookup_empty. cbn [default]. rewrite zero_uninitialized. reflexivity. }
  assert (Hplain : resolved_demands calls init <> [] ->
            zone_total (run calls init) "main_zone"
              = sum_demands (merged_plaintext <$> resolved_demands calls init) mod 2 ^ 32).
  { intros Hne. unfold zone_total. rewrite (Hhandle Hne). unfold merged_total.
    rewrite decrypt_merged, decrypt_asEuint32 by (unfold MAX_UINT32; lia).
    reflexivity. }
  split; [intros Hne; split; [apply Hhandle|apply Hplain]; exact Hne|].
  split.
  - intros Hmirror.
    assert (Hmod : zone_total (run calls init) "main_zone"
                   = sum_demands (resolved_demands calls init) mod 2 ^ 32).
    { destruct (resolved_demands calls init) as [|d rest] eqn:E.
      - unfold zone_total. rewrite run_total, E.
        unfold encryptedAllocation_at. cbn [encryptedAllocation init].
        rewrite lookup_empty. cbn [default].
        fold (merged_plaintext 0). rewrite Hmirror by (unfold MAX_UINT32; lia).
        reflexivity.
      - rewrite Hplain by congruence. f_equal. f_equal.
        pose proof (resolved_demands_range calls init) as Hrange. rewrite E in Hrange.
        clear E Hhandle Hplain. induction Hrange as [|x l Hx _ IH]; [reflexivity|].
        cbn. rewrite (Hmirror x Hx). f_equal. exact IH. }
    split; [exact Hmod|].
    intros Hfit. rewrite Hmod. apply Z.mod_small.
    pose proof (resolved_demands_nonneg calls init). unfold MAX_UINT32 in Hfit. lia.
  - intros Hover Heq.
    pose proof (decrypt_range (encryptedAllocation_at (run calls init) "main_zone")) as Hr.
    unfold zone_total in Heq. lia.
Qed.

End Accumulation.

(** ** Further properties of the contract *)

(** *** Calls that go through *)

Lemma call_submitEncryptedRequest t d p s :
  requestCount s + 1 <= MAX_UINT256 ->
  call (submitEncryptedRequest t d p) s = (Ok tt, submitted t d p s).
Proof.
  intros Hc. unfold call. rewrite submitEncryptedRequest_run.
  destruct (requestCount s + 1 <=? MAX_UINT256) eqn:E; [reflexivity|lia].
Qed.

Lemma call_requestDecryption reqId oracleId s :
  processed (decryptedRequests_at s reqId) = false ->
  call (requestDecryption reqId oracleId) s
    = (Ok tt, decryption_requested reqId oracleId s).
Proof. intros Hp. unfold call. rewrite requestDecryption_run, Hp. reflexivity. Qed.

Lemma call_decryptRequest decReqId cleartexts proof d p s :
  requestToId_at s decReqId <> 0 ->
  processed (decryptedRequests_at s (requestToId_at s decReqId)) = false ->
  FHE_checkSignatures decReqId cleartexts proof = true ->
  decode_uint32_pair cleartexts = Some (d, p) ->
  call (decryptRequest decReqId cleartexts proof) s
    = (Ok tt, resolved (requestToId_at s decReqId) d p s).
Proof.
  intros Hne Hp Hok Hdec. unfold call. rewrite decryptRequest_run. cbn zeta.
  destruct (requestToId_at s decReqId =? 0) eqn:E0; [lia|].
  rewrite Hp, Hok, Hdec. reflexivity.
Qed.

(** *** The ABI decoder at its edges *)

Lemma decode_encode_uint32_pair_trailing a b extra :
  0 <= a <= MAX_UINT32 -> 0 <= b <= MAX_UINT32 ->
  decode_uint32_pair (encode_uint32_pair a b ++ extra) = Some (a, b).
Proof.
  intros Ha Hb. unfold decode_uint32_pair, encode_uint32_pair, word_at.
  rewrite <- app_assoc.
  rewrite !length_app, !length_encode_word.
  destruct (32 + (32 + length extra) <? 64)%nat eqn:E;
    [apply Nat.ltb_lt in E; lia|].
  change (32 * 0)%nat with 0%nat. change (32 * 1)%nat with 32%nat.
  rewrite drop_0, take_app_length' by (symmetry; apply length_encode_word).
  rewrite drop_app_length' by (symmetry; apply length_encode_word).
  rewrite take_app_length' by (symmetry; apply length_encode_word).
  unfold MAX_UINT32 in *.
  rewrite !be_word_encode_word by (unfold MAX_UINT256; lia).
  unfold decode_uint32, MAX_UINT32.
  destruct (a <=? 2 ^ 32 - 1) eqn:Ea; [|lia].
  destruct (b <=? 2 ^ 32 - 1) eqn:Eb; [|lia].
  reflexivity.
Qed.

(** X1. From any reachable state, a submission, a decryption request for
    the id it was given and the oracle's callback carrying the ABI encoding
    of (demand, priority) -- followed by any trailing bytes -- with a proof
    the library accepts all go through, and the request then reads
    (demand, priority, true). *)
Theorem lifecycle_reveals
    (calls : list Call) (t : Z) (d p : euint32) (oracleId dm pr : Z)
    (extra proof : bytes) :
  let s := run calls init in
  let newId := requestCount s + 1 in
  let cleartexts := encode_uint32_pair dm pr ++ extra in
  newId <= MAX_UINT256 ->
  0 <= dm <= MAX_UINT32 ->
  0 <= pr <= MAX_UINT32 ->
  FHE_checkSignatures oracleId cleartexts proof = true ->
  exists s1 s2 s3,
    call (submitEncryptedRequest t d p) s = (Ok tt, s1) /\
    call (requestDecryption newId oracleId) s1 = (Ok tt, s2) /\
    call (decryptRequest oracleId cleartexts proof) s2 = (Ok tt, s3) /\
    call (getDecryptedRequest newId) s3 = (Ok (dm, pr, true), s3).
Proof.
  cbn zeta. intros Hfit Hdm Hpr Hok.
  set (s := run calls init) in *. set (newId := requestCount s + 1) in *.
  destruct (unissued_untouched_run calls) as (Hpos & _). fold s in Hpos.
  assert (Hp1 : processed (decryptedRequests_at (submitted t d p s) newId) = false).
  { rewrite decryptedRequests_at_submitted, decide_True by reflexivity. reflexivity. }
  set (s1 := submitted t d p s) in *.
  set (s2 := decryption_requested newId oracleId s1).
  assert (Htarget : requestToId_at s2 oracleId = newId).
  { unfold s2, decryption_requested, requestToId_at. cbn.
    rewrite lookup_insert_eq. reflexivity. }
  exists s1, s2, (resolved newId dm pr s2).
  split; [apply call_submitEncryptedRequest; exact Hfit|].
  split; [apply call_requestDecryption; exact Hp1|]. split.
  - rewrite (call_decryptRequest oracleId _ proof dm pr s2).
    + rewrite Htarget. reflexivity.
    + rewrite Htarget. unfold newId. lia.
    + rewrite Htarget. exact Hp1.
    + exact Hok.
    + apply decode_encode_uint32_pair_trailing; assumption.
  - unfold call, getDecryptedRequest, bind, gets, ret.
    rewrite decryptedRequests_at_resolved, decide_True by reflexivity. reflexivity.
Qed.

(** *** What is stored stays stored *)

Lemma decryptedRequests_at_step_processed c s k :
  issued s k ->
  processed (decryptedRequests_at s k) = true ->
  decryptedRequests_at (step c s) k = decryptedRequests_at s k.
Proof.
  intros Hissued Hp. apply step_cases; [reflexivity|..].
  - intros t d p _ _. rewrite decryptedRequests_at_submitted.
    rewrite decide_False by (unfold issued in Hissued; lia). reflexivity.
  - intros reqId oracleId _ _. reflexivity.
  - intros decReqId cleartexts proof d p _ _ Hfresh _.
    rewrite decryptedRequests_at_resolved.
    destruct (decide (requestToId_at s decReqId = k)) as [Heq|]; [|reflexivity].
    rewrite Heq in Hfresh. congruence.
  - intros zone oracleId _ _. reflexivity.
Qed.

(** X2. The result of an issued request that is marked processed never
    changes again: after any further calls the ledger holds the same
    demand and priority, and the read answers them with the flag set. *)
Theorem resolved_result_persists (s : State) (k : Z) (calls : list Call) :
  issued s k ->
  processed (decryptedRequests_at s k) = true ->
  let s' := run calls s in
  decryptedRequests_at s' k = decryptedRequests_at s k /\
  call (getDecryptedRequest k) s'
    = (Ok (demand (decryptedRequests_at s k), priority (decryptedRequests_at s k), true), s').
Proof.
  cbn zeta. intros Hissued Hp.
  assert (Hkept : decryptedRequests_at (run calls s) k = decryptedRequests_at s k).
  { revert s Hissued Hp. induction calls as [|c rest IH]; intros s Hissued Hp; cbn;
      [reflexivity|].
    destruct (processed_step c s k (conj Hissued Hp)) as [Hissued' Hp'].
    rewrite (IH _ Hissued' Hp'). apply decryptedRequests_at_step_processed; assumption. }
  split; [exact Hkept|].
  unfold call, getDecryptedRequest, bind, gets, ret. rewrite Hkept, Hp. reflexivity.
Qed.

Lemma encryptedRequests_at_step c s k :
  issued s k ->
  issued (step c s) k /\ encryptedRequests_at (step c s) k = encryptedRequests_at s k.
Proof.
  intros Hissued. apply step_cases; [split; [exact Hissued|reflexivity]|..].
  - intros t d p _ _. unfold issued, encryptedRequests_at, submitted in *. cbn.
    split; [lia|]. rewrite lookup_insert_ne by lia. reflexivity.
  - intros reqId oracleId _ _. split; [exact Hissued|reflexivity].
  - intros decReqId cleartexts proof d p _ _ _ _.
    destruct (resolved_frame (requestToId_at s decReqId) d p s) as (Hc & He & _).
    unfold issued, encryptedRequests_at. rewrite Hc, He. split; [exact Hissued|reflexivity].
  - intros zone oracleId _ _. split; [exact Hissued|reflexivity].
Qed.

Lemma encryptedRequests_at_run calls s k :
  issued s k -> encryptedRequests_at (run calls s) k = encryptedRequests_at s k.
Proof.
  revert s. induction calls as [|c rest IH]; intros s Hissued; cbn; [reflexivity|].
  destruct (encryptedRequests_at_step c s k Hissued) as [Hissued' Hkept].
  rewrite (IH _ Hissued'). exact Hkept.
Qed.

(** X3. A submitted request is immutable: whatever calls follow the
    submission, the entry under its id holds the id, the two ciphertexts and
    the timestamp it was created with, and every decryption request for it
    that goes through sends exactly these two ciphertexts to the oracle. *)
Theorem submitted_request_immutable
    (s s1 : State) (t : Z) (d p : euint32) (calls : list Call) :
  0 <= requestCount s ->
  call (submitEncryptedRequest t d p) s = (Ok tt, s1) ->
  let newId := requestCount s + 1 in
  let s2 := run calls s1 in
  encryptedRequests_at s2 newId
    = {| id := newId; encryptedDemand := d; encryptedPriority := p; timestamp := t |} /\
  forall oracleId s3,
    call (requestDecryption newId oracleId) s2 = (Ok tt, s3) ->
    oracle s3 = oracle s2
                ++ [ {| oracle_id := oracleId;
                        oracle_ciphertexts := [FHE_toBytes32 d; FHE_toBytes32 p];
                        oracle_callback := decryptRequest_selector |} ].
Proof.
  cbn zeta. intros Hpos Hcall.
  assert (Hs1 : s1 = submitted t d p s).
  { revert Hcall. unfold call. rewrite submitEncryptedRequest_run.
    destruct (requestCount s + 1 <=? MAX_UINT256); [|discriminate].
    intros [= <-]. reflexivity. }
  subst s1.
  assert (Hstored : encryptedRequests_at (run calls (submitted t d p s)) (requestCount s + 1)
                    = {| id := requestCount s + 1; encryptedDemand := d;
                         encryptedPriority := p; timestamp := t |}).
  { rewrite encryptedRequests_at_run.
    - unfold encryptedRequests_at, submitted. cbn. rewrite lookup_insert_eq. reflexivity.
    - unfold issued, submitted. cbn. lia. }
  split; [exact Hstored|].
  intros oracleId s3 Hreq.
  destruct (requestDecryption_done_inv _ _ _ _ Hreq) as [_ ->].
  unfold decryption_requested. cbn. rewrite Hstored. reflexivity.
Qed.

(** *** The counter and the stored results stay in range *)

Lemma requestCount_step c s :
  0 <= requestCount s <= MAX_UINT256 -> 0 <= requestCount (step c s) <= MAX_UINT256.
Proof.
  intros Hs. apply step_cases; [exact Hs|..].
  - intros t d p _ Hfit. unfold submitted. cbn. lia.
  - intros reqId oracleId _ _. exact Hs.
  - intros decReqId cleartexts proof d p _ _ _ _.
    destruct (resolved_frame (requestToId_at s decReqId) d p s) as (-> & _). exact Hs.
  - intros zone oracleId _ _. exact Hs.
Qed.

(** X4. The request counter never leaves the range of a [uint256]; when it
    has reached 2^256 - 1 a submission reverts with the arithmetic panic
    (code 0x11) and changes nothing. *)
Theorem requestCount_bounded :
  (forall calls, 0 <= requestCount (run calls init) <= MAX_UINT256) /\
  (forall s t d p,
      requestCount s = MAX_UINT256 ->
      submitEncryptedRequest t d p s = Abort (Panic 17) s /\
      call (submitEncryptedRequest t d p) s = (Reverted (Panic 17), s)).
Proof.
  split.
  - intros calls.
    apply (run_invariant (fun s => 0 <= requestCount s <= MAX_UINT256));
      [apply requestCount_step|].
    cbn. unfold MAX_UINT256. lia.
  - intros s t d p Hmax.
    assert (Habort : submitEncryptedRequest t d p s = Abort (Panic 17) s).
    { rewrite submitEncryptedRequest_run.
      destruct (requestCount s + 1 <=? MAX_UINT256) eqn:E; [lia|reflexivity]. }
    split; [exact Habort|]. unfold call. rewrite Habort. reflexivity.
Qed.

Lemma results_in_range_step c s : results_in_range s -> results_in_range (step c s).
Proof.
  intros Hs. apply step_cases; [exact Hs|..].
  - intros t d p _ _ k. rewrite decryptedRequests_at_submitted.
    destruct (decide (requestCount s + 1 = k)); [|apply Hs].
    cbn. unfold MAX_UINT32. lia.
  - intros reqId oracleId _ _. exact Hs.
  - intros decReqId cleartexts proof d p _ _ _ Hdec k.
    rewrite decryptedRequests_at_resolved.
    destruct (decide (requestToId_at s decReqId = k)); [|apply Hs].
    cbn. apply (decode_uint32_pair_range _ _ _ Hdec).
  - intros zone oracleId _ _. exact Hs.
Qed.

(** X5. In every reachable state, and for every id, the stored demand and
    priority are 32-bit unsigned values: a resolution only ever writes what
    the ABI decoder accepted as a pair of [uint32]. *)
Theorem results_in_range_run (calls : list Call) (k : Z) :
  0 <= demand (decryptedRequests_at (run calls init) k) <= MAX_UINT32 /\
  0 <= priority (decryptedRequests_at (run calls init) k) <= MAX_UINT32.
Proof.
  revert k. apply (run_invariant results_in_range); [apply results_in_range_step|].
  intros k. unfold decryptedRequests_at. cbn [decryptedRequests init].
  rewrite lookup_empty. cbn. unfold MAX_UINT32. lia.
Qed.

(** X6. Cleartexts shorter than the 64 bytes of two ABI words never resolve
    a request: whatever the callback id and the proof, the resolution entry
    point reverts and the state is unchanged. *)
Theorem decryptRequest_short_cleartexts
    (s : State) (decReqId : Z) (cleartexts proof : bytes) :
  (length cleartexts < 64)%nat ->
  exists e, call (decryptRequest decReqId cleartexts proof) s = (Reverted e, s).
Proof.
  intros Hshort. unfold call. rewrite decryptRequest_run. cbn zeta.
  destruct (requestToId_at s decReqId =? 0); [eauto|].
  destruct (processed _); [eauto|].
  destruct (negb _); [eauto|].
  unfold decode_uint32_pair.
  destruct (length cleartexts <? 64)%nat eqn:E; [eauto|].
  apply Nat.ltb_ge in E. lia.
Qed.

(** *** Request id 0 *)

(** X7. Id 0 can be sent for decryption but never resolved: in every
    reachable state a decryption request for id 0 goes through and
    registers its callback, the resolution entry point called with that
    callback fails with "Invalid request" exactly as for an unknown
    callback, and id 0 reads (0, 0, false). *)
Theorem request_zero_unresolvable
    (calls : list Call) (oracleId : Z) (cleartexts proof : bytes) :
  let s := run calls init in
  exists s1,
    call (requestDecryption 0 oracleId) s = (Ok tt, s1) /\
    requestToId s1 !! oracleId = Some 0 /\
    call (decryptRequest oracleId cleartexts proof) s1
      = (Reverted (Revert "Invalid request"), s1) /\
    call (getDecryptedRequest 0) s1 = (Ok (0, 0, false), s1).
Proof.
  cbn zeta. set (s := run calls init).
  pose proof (decryptedRequests_at_zero calls) as Hzero. fold s in Hzero.
  exists (decryption_requested 0 oracleId s).
  assert (Hentry : requestToId (decryption_requested 0 oracleId s) !! oracleId = Some 0).
  { unfold decryption_requested. cbn. apply lookup_insert_eq. }
  split; [apply call_requestDecryption; rewrite Hzero; reflexivity|].
  split; [exact Hentry|]. split.
  - unfold call. rewrite decryptRequest_run. cbn zeta.
    unfold requestToId_at. rewrite Hentry. reflexivity.
  - unfold call, getDecryptedRequest, bind, gets, ret.
    change (decryptedRequests_at (decryption_requested 0 oracleId s) 0)
      with (decryptedRequests_at s 0).
    rewrite Hzero. reflexivity.
Qed.

(** *** Reverse lookup of a zone *)

Lemma scan_zones_Some zones hash zone :
  scan_zones zones hash = Some zone <->
  exists pre post,
    zones = pre ++ zone :: post /\
    bytes32ToUint (keccak256_packed zone) = hash /\
    Forall (fun z => bytes32ToUint (keccak256_packed z) <> hash) pre.
Proof.
  induction zones as [|z rest IH]; cbn.
  - split; [discriminate|]. intros (pre & post & Heq & _).
    destruct pre; discriminate.
  - destruct (bytes32ToUint (keccak256_packed z) =? hash) eqn:E.
    + apply Z.eqb_eq in E. split.
      * intros [= <-]. exists [], rest. split; [reflexivity|]. split; [exact E|constructor].
      * intros (pre & post & Heq & Hhash & Hpre).
        destruct pre as [|z' pre]; cbn in Heq; injection Heq as -> ->; [reflexivity|].
        apply Forall_cons in Hpre as [Hne _]. congruence.
    + apply Z.eqb_neq in E. rewrite IH. split.
      * intros (pre & post & -> & Hhash & Hpre).
        exists (z :: pre), post. split; [reflexivity|]. split; [exact Hhash|].
        constructor; assumption.
      * intros (pre & post & Heq & Hhash & Hpre).
        destruct pre as [|z' pre]; cbn in Heq; injection Heq as -> ->; [congruence|].
        apply Forall_cons in Hpre as [_ Hpre]. eauto.
Qed.

Lemma scan_zones_None zones hash :
  scan_zones zones hash = None <->
  Forall (fun z => bytes32ToUint (keccak256_packed z) <> hash) zones.
Proof.
  induction zones as [|z rest IH]; cbn.
  - split; [constructor|reflexivity].
  - destruct (bytes32ToUint (keccak256_packed z) =? hash) eqn:E.
    + apply Z.eqb_eq in E. split; [discriminate|].
      intros H. apply Forall_cons in H as [Hne _]. congruence.
    + apply Z.eqb_neq in E. rewrite IH. split.
      * intros H. constructor; assumption.
      * intros H. apply Forall_cons in H as [_ H]. exact H.
Qed.

(** X8. The reverse lookup is a first-match scan of the registry: it
    answers a zone exactly when that zone is the first one in [zoneList]
    whose hash is the one looked up, and it reverts with "Zone not found"
    exactly when no zone of the list has that hash.  It never changes the
    state. *)
Theorem getZoneFromHash_first_match (s : State) (hash : Z) :
  (forall zone,
      getZoneFromHash hash s = Done zone s <->
      exists pre post,
        zoneList s = pre ++ zone :: post /\
        bytes32ToUint (keccak256_packed zone) = hash /\
        Forall (fun z => bytes32ToUint (keccak256_packed z) <> hash) pre) /\
  (getZoneFromHash hash s = Abort (Revert "Zone not found") s <->
   Forall (fun z => bytes32ToUint (keccak256_packed z) <> hash) (zoneList s)) /\
  (forall zone s', getZoneFromHash hash s = Done zone s' -> s' = s).
Proof.
  unfold getZoneFromHash, bind, gets, ret, abort.
  split; [|split].
  - intros zone. rewrite <- scan_zones_Some.
    destruct (scan_zones (zoneList s) hash) as [z|]; cbn; split; intros H;
      try discriminate; congruence.
  - rewrite <- scan_zones_None.
    destruct (scan_zones (zoneList s) hash) as [z|]; cbn; split; intros H;
      try discriminate; reflexivity.
  - intros zone s'. destruct (scan_zones (zoneList s) hash) as [z|]; cbn;
      [intros [= _ <-]; reflexivity|discriminate].
Qed.

(** X9. A registered zone is found again from its hash: the lookup of
    [hash(zone)] answers a registered zone with that same hash, and it
    answers [zone] itself whenever no other registered zone shares the
    hash. *)
Theorem getZoneFromHash_registered (s : State) (zone : string) :
  zone ∈ zoneList s ->
  exists found,
    getZoneFromHash (bytes32ToUint (keccak256_packed zone)) s = Done found s /\
    found ∈ zoneList s /\
    keccak256_packed found = keccak256_packed zone /\
    ((forall z, z ∈ zoneList s ->
                keccak256_packed z = keccak256_packed zone -> z = zone) ->
     found = zone).
Proof.
  intros Hin. unfold getZoneFromHash, bind, gets, ret, abort.
  destruct (scan_zones (zoneList s) (bytes32ToUint (keccak256_packed zone)))
    as [found|] eqn:E.
  - apply scan_zones_Some in E as (pre & post & Heq & Hhash & _).
    assert (Hfound : found ∈ zoneList s).
    { rewrite Heq. apply elem_of_app. right. left. }
    exists found. cbn. split; [reflexivity|]. split; [exact Hfound|].
    split; [exact Hhash|]. intros Hinj. apply Hinj; [exact Hfound|exact Hhash].
  - apply scan_zones_None in E. rewrite Forall_forall in E.
    exfalso. apply (E zone Hin). reflexivity.
Qed.

(** *** Resolving a zone callback *)

(** X10. The zone resolution entry point writes nothing: whether it goes
    through or reverts, the state is the one it started from, so the
    revealed total is not kept anywhere.  It goes through exactly when the
    hash correlated to the callback is that of a registered zone, the proof
    is accepted and the cleartexts decode to a [uint32]; an unmatched hash is
    reported as "Zone not found" before the proof is looked at. *)
Theorem decryptAllocation_writes_nothing
    (s : State) (reqId : Z) (cleartexts proof : bytes) :
  step (DecryptAllocation reqId cleartexts proof) s = s /\
  (forall e s_at, decryptAllocation reqId cleartexts proof s = Abort e s_at -> s_at = s) /\
  (forall s', decryptAllocation reqId cleartexts proof s = Done tt s' -> s' = s) /\
  (succeeds (DecryptAllocation reqId cleartexts proof) s = true <->
   is_Some (scan_zones (zoneList s) (requestToId_at s reqId)) /\
   FHE_checkSignatures reqId cleartexts proof = true /\
   is_Some (decode_uint32_single cleartexts)) /\
  (scan_zones (zoneList s) (requestToId_at s reqId) = None ->
   decryptAllocation reqId cleartexts proof s = Abort (Revert "Zone not found") s).
Proof.
  unfold step, succeeds, call, dispatch.
  unfold decryptAllocation, getZoneFromHash, bind, gets, checkSignatures, abi_decode,
    ret, abort.
  destruct (scan_zones (zoneList s) (requestToId_at s reqId)) as [zone|]; cbn.
  2:{ repeat split; try congruence; try discriminate.
      intros (H & _). destruct H; discriminate. }
  destruct (FHE_checkSignatures reqId cleartexts proof); cbn.
  2:{ repeat split; try congruence; try discriminate.
      intros (_ & H & _). discriminate. }
  destruct (decode_uint32_single cleartexts) as [v|]; cbn.
  - repeat split; try congruence; eauto.
  - repeat split; try congruence; try discriminate.
    intros (_ & _ & H). destruct H; discriminate.
Qed.

(** *** One correlation table for two flows *)

(** X11. The request flow does not tell a zone callback from a request
    callback.  Once a zone decryption request has registered its callback,
    the request resolution entry point called with that callback treats the
    zone hash as a request id: if the hash is not 0 and no result is marked
    processed under it, an accepted proof with well-formed cleartexts makes
    it go through and a result is written under the hash. *)
Theorem zone_callback_resolves_as_request
    (s s1 : State) (zone : string) (oracleId d p : Z) (cleartexts proof : bytes) :
  call (requestAllocationDecryption zone oracleId) s = (Ok tt, s1) ->
  let hash := bytes32ToUint (keccak256_packed zone) in
  hash <> 0 ->
  processed (decryptedRequests_at s hash) = false ->
  FHE_checkSignatures oracleId cleartexts proof = true ->
  decode_uint32_pair cleartexts = Some (d, p) ->
  exists s2,
    call (decryptRequest oracleId cleartexts proof) s1 = (Ok tt, s2) /\
    decryptedRequests_at s2 hash = {| demand := d; priority := p; processed := true |} /\
    RequestDecrypted hash ∈ events s2.
Proof.
  cbn zeta. intros Hcall Hne Hp Hok Hdec.
  assert (Hs1 : s1 = allocation_decryption_requested zone oracleId s).
  { revert Hcall. unfold call. rewrite requestAllocationDecryption_run.
    destruct (FHE_isInitialized (encryptedAllocation_at s zone)); [|discriminate].
    intros [= <-]. reflexivity. }
  subst s1.
  assert (Htarget : requestToId_at (allocation_decryption_requested zone oracleId s) oracleId
                    = bytes32ToUint (keccak256_packed zone)).
  { unfold allocation_decryption_requested, requestToId_at. cbn.
    rewrite lookup_insert_eq. reflexivity. }
  exists (resolved (bytes32ToUint (keccak256_packed zone)) d p
            (allocation_decryption_requested zone oracleId s)).
  split; [|split].
  - rewrite (call_decryptRequest oracleId cleartexts proof d p).
    + rewrite Htarget. reflexivity.
    + rewrite Htarget. exact Hne.
    + rewrite Htarget. exact Hp.
    + exact Hok.
    + exact Hdec.
  - rewrite decryptedRequests_at_resolved, decide_True by reflexivity. reflexivity.
  - unfold resolved. cbn. apply elem_of_app. right. left.
Qed.

(** *** Notifications and outbound requests *)

(** What each call adds to the event log.  A call that reverts adds
    nothing.  A submission adds [RequestSubmitted] with the new id and the
    block timestamp; a decryption request adds [DecryptionRequested]; a
    resolution adds [AllocationUpdated] for "main_zone" with the total it
    has just stored, then [RequestDecrypted]; the two zone entry points add
    nothing.  Earlier events are never touched. *)
Lemma events_of_step (c : Call) (s : State) :
  events (step c s) =
    events s ++
    (if succeeds c s then
       match c with
       | SubmitEncryptedRequest t _ _ => [RequestSubmitted (requestCount s + 1) t]
       | RequestDecryption reqId _ => [DecryptionRequested reqId]
       | DecryptRequest decReqId cleartexts proof =>
           [AllocationUpdated "main_zone"
              (encryptedAllocation_at (step (DecryptRequest decReqId cleartexts proof) s)
                 "main_zone");
            RequestDecrypted (requestToId_at s decReqId)]
       | RequestAllocationDecryption _ _ => []
       | DecryptAllocation _ _ _ => []
       end
     else []).
Proof.
  destruct c as [t d p|reqId oracleId|decReqId cleartexts proof|zone oracleId|reqId cleartexts proof];
    unfold step, succeeds, call, dispatch.
  - rewrite submitEncryptedRequest_run.
    destruct (requestCount s + 1 <=? MAX_UINT256); cbn; [reflexivity|].
    rewrite app_nil_r. reflexivity.
  - rewrite requestDecryption_run.
    destruct (processed (decryptedRequests_at s reqId)); cbn; [|reflexivity].
    rewrite app_nil_r. reflexivity.
  - rewrite decryptRequest_run. cbn zeta.
    destruct (requestToId_at s decReqId =? 0); cbn; [rewrite app_nil_r; reflexivity|].
    destruct (processed (decryptedRequests_at s (requestToId_at s decReqId))); cbn;
      [rewrite app_nil_r; reflexivity|].
    destruct (FHE_checkSignatures decReqId cleartexts proof); cbn;
      [|rewrite app_nil_r; reflexivity].
    destruct (decode_uint32_pair cleartexts) as [[d p]|]; cbn;
      [|rewrite app_nil_r; reflexivity].
    unfold resolved, contributed, update_decryptedRequests.
    destruct (FHE_isInitialized _); cbn; rewrite <- app_assoc; reflexivity.
  - rewrite requestAllocationDecryption_run.
    destruct (FHE_isInitialized (encryptedAllocation_at s zone)); cbn;
      rewrite app_nil_r; reflexivity.
  - destruct (decryptAllocation_run reqId cleartexts proof s) as [[e ->] | ->];
      cbn; rewrite app_nil_r; reflexivity.
Qed.

Lemma filter_successful_cons (f : Call -> bool) c rest s :
  List.filter f (successful (c :: rest) s) =
    (if f c && succeeds c s then [c] else [])
    ++ List.filter f (successful rest (step c s)).
Proof.
  cbn [successful]. rewrite List.filter_app.
  destruct (succeeds c s); cbn [List.filter];
    destruct (f c); reflexivity.
Qed.

Lemma run_notifications calls s :
  length (omap decrypted_id (events (run calls s)))
    = (length (omap decrypted_id (events s)) + length (resolutions calls s))%nat /\
  omap updated_zone (events (run calls s))
    = omap updated_zone (events s)
      ++ replicate (length (resolutions calls s)) "main_zone" /\
  length (omap requested_id (events (run calls s)))
    = (length (omap requested_id (events s))
       + length (List.filter is_request (successful calls s)))%nat.
Proof.
  revert s. induction calls as [|c rest IH]; intros s.
  - cbn. rewrite app_nil_r. repeat split; lia.
  - cbn [run]. destruct (IH (step c s)) as (IHd & IHz & IHr).
    unfold resolutions in *. rewrite !filter_successful_cons.
    rewrite IHd, IHz, IHr, events_of_step, !omap_app, !length_app.
    destruct c as [t d p|reqId oracleId|decReqId cleartexts proof|zone oracleId|reqId cleartexts proof];
      cbn [is_resolution is_request andb]; destruct (succeeds _ s); cbn;
      rewrite ?app_nil_r, <- ?app_assoc; repeat split; cbn; lia.
Qed.

(** X12. Over a trace from deployment the log holds exactly one
    [RequestDecrypted] and one [AllocationUpdated] per resolution that went
    through, every [AllocationUpdated] names "main_zone", and it holds
    exactly one [DecryptionRequested] per decryption request that went
    through. *)
Theorem notifications_match_transitions (calls : list Call) :
  let s := run calls init in
  length (omap decrypted_id (events s)) = length (resolutions calls init) /\
  omap updated_zone (events s) = replicate (length (resolutions calls init)) "main_zone" /\
  length (omap requested_id (events s))
    = length (List.filter is_request (successful calls init)).
Proof.
  cbn zeta. destruct (run_notifications calls init) as (Hd & Hz & Hr).
  cbn in Hd, Hz, Hr. repeat split; assumption.
Qed.

Lemma run_oracle calls s :
  oracle_id <$> oracle (run calls s)
    = (oracle_id <$> oracle s) ++ registered_callbacks calls s.
Proof.
  revert s. induction calls as [|c rest IH]; intros s.
  - cbn. rewrite app_nil_r. reflexivity.
  - cbn [run]. rewrite IH, step_oracle, registered_callbacks_cons, app_assoc. reflexivity.
Qed.

Lemma requestToId_step_registers c s k :
  succeeds c s = true ->
  issued_callback c = Some k ->
  is_Some (requestToId (step c s) !! k).
Proof.
  destruct c as [t d p|reqId oracleId|decReqId cleartexts proof|zone oracleId|reqId cleartexts proof];
    cbn [issued_callback]; try discriminate;
    unfold step, succeeds, call, dispatch.
  - rewrite requestDecryption_run.
    destruct (processed (decryptedRequests_at s reqId)); [discriminate|].
    intros _ [= ->]. unfold decryption_requested. cbn. rewrite lookup_insert_eq. eauto.
  - rewrite requestAllocationDecryption_run.
    destruct (FHE_isInitialized (encryptedAllocation_at s zone)); [|discriminate].
    intros _ [= ->]. unfold allocation_decryption_requested. cbn.
    rewrite lookup_insert_eq. eauto.
Qed.

Lemma requestToId_run_registered calls s k :
  k ∈ registered_callbacks calls s \/ is_Some (requestToId s !! k) ->
  is_Some (requestToId (run calls s) !! k).
Proof.
  revert s. induction calls as [|c rest IH]; intros s.
  - cbn. intros [Hin | Hk]; [|exact Hk]. inversion Hin.
  - cbn [run]. rewrite registered_callbacks_cons. intros [Hin | Hk].
    + apply elem_of_app in Hin as [Hhead | Htail].
      * apply IH. right.
        destruct (succeeds c s) eqn:Hs; [|inversion Hhead].
        destruct (issued_callback c) as [k'|] eqn:Hc; [|inversion Hhead].
        cbn in Hhead. apply list_elem_of_singleton in Hhead as ->.
        apply requestToId_step_registers; assumption.
      * apply IH. left. exact Htail.
    + apply IH. right. apply requestToId_step_kept. exact Hk.
Qed.

Lemma registrations_cons c rest s :
  registrations (c :: rest) s =
    (if succeeds c s then option_list (registration c) else [])
    ++ registrations rest (step c s).
Proof.
  unfold registrations. cbn [successful]. rewrite omap_app.
  destruct (succeeds c s); cbn; [destruct (registration c)|]; reflexivity.
Qed.

Lemma requestToId_at_run calls s k :
  requestToId_at (run calls s) k
    = default (requestToId_at s k) (last (correlated k calls s)).
Proof.
  revert s. induction calls as [|c rest IH]; intros s; [reflexivity|].
  cbn [run]. rewrite IH, requestToId_at_step. unfold correlated.
  rewrite registrations_cons, List.filter_app, fmap_app.
  set (later := snd <$> List.filter (fun r => fst r =? k) (registrations rest (step c s))).
  destruct (succeeds c s); cbn [List.filter fmap list_fmap app]; [|reflexivity].
  destruct (registration c) as [[oracleId target]|];
    cbn [option_list option_rect List.filter fmap list_fmap app fst snd];
    [|reflexivity].
  destruct (oracleId =? k); cbn [fmap list_fmap app snd]; [|reflexivity].
  destruct later as [|x l] eqn:E using rev_ind; [reflexivity|].
  rewrite app_comm_cons, !last_snoc. reflexivity.
Qed.

(** X13. The correlation table and the oracle agree.  Over a trace from
    deployment the callback ids of the outbound decryption requests are, in
    order, those of the decryption requests that went through.  Under each
    callback id the table reads the domain id stored by the latest of the
    requests that went through with it, and zero under an id none of them
    went through with. *)
Theorem correlation_table_domain (calls : list Call) :
  let s := run calls init in
  oracle_id <$> oracle s = registered_callbacks calls init /\
  fst <$> registrations calls init = registered_callbacks calls init /\
  (forall k, requestToId_at s k = default 0 (last (correlated k calls init))) /\
  (forall k, k ∉ registered_callbacks calls init -> requestToId_at s k = 0).
Proof.
  cbn zeta.
  assert (Hkeys : fst <$> registrations calls init = registered_callbacks calls init).
  { unfold registrations, registered_callbacks.
    induction (successful calls init) as [|c rest IH]; [reflexivity|].
    cbn [omap list_omap]. destruct c; cbn; rewrite ?IH; reflexivity. }
  split; [rewrite run_oracle; reflexivity|]. split; [exact Hkeys|]. split.
  - intros k. rewrite requestToId_at_run. reflexivity.
  - intros k Hnot. unfold requestToId_at.
    rewrite (requestToId_run_None calls init k); [reflexivity|reflexivity|exact Hnot].
Qed.

(** X14. The logs only grow: after any calls, from any state, the events
    and the outbound requests recorded before are still there, in the same
    order, at the head of the logs. *)
Theorem logs_only_grow (calls : list Call) (s : State) :
  events s `prefix_of` events (run calls s) /\
  oracle s `prefix_of` oracle (run calls s).
Proof.
  revert s. induction calls as [|c rest IH]; intros s; cbn [run]; [split; reflexivity|].
  destruct (IH (step c s)) as [He Ho]. split.
  - etransitivity; [|exact He]. rewrite events_of_step. apply prefix_app_r. reflexivity.
  - etransitivity; [|exact Ho].
    apply step_cases; [reflexivity|..].
    + intros t d p _ _. reflexivity.
    + intros reqId oracleId _ _. unfold decryption_requested. cbn.
      apply prefix_app_r. reflexivity.
    + intros decReqId cleartexts proof d p _ _ _ _.
      destruct (resolved_frame (requestToId_at s decReqId) d p s) as (_ & _ & _ & ->).
      reflexivity.
    + intros zone oracleId _ _. unfold allocation_decryption_requested. cbn.
      apply prefix_app_r. reflexivity.
Qed.

(** *** What a resolution leaves alone *)


(** *** The zone registry *)

Section ZoneRegistry.

Context (laws : FHELaws fhe).

(** The zero handle of an unwritten slot is the uninitialized one. *)
Hypothesis zero_uninitialized : FHE_isInitialized (euint32_wrap 0) = false.

Lemma initialized_iff_stored s zone :
  zones_initialized s ->
  FHE_isInitialized (encryptedAllocation_at s zone) = true
    <-> is_Some (encryptedAllocation s !! zone).
Proof.
  intros Hinit. unfold encryptedAllocation_at.
  destruct (encryptedAllocation s !! zone) as [h|] eqn:E; cbn.
  - split; [eauto|]. intros _. apply (Hinit _ _ E).
  - rewrite zero_uninitialized. split; [discriminate|]. intros [h Hh]. discriminate.
Qed.

Lemma contributed_lockstep (s : State) (zone : string) (additional : euint32) :
  zones_initialized s ->
  zone_registry_lockstep s ->
  zones_initialized (contributed zone additional s) /\
  zone_registry_lockstep (contributed zone additional s) /\
  zone ∈ zoneList (contributed zone additional s) /\
  zoneList (contributed zone additional s)
    = (if decide (zone ∈ zoneList s) then zoneList s else zoneList s ++ [zone]).
Proof.
  intros Hinit [Hnodup Hlock].
  pose proof (initialized_iff_stored s zone Hinit) as Hiff.
  unfold contributed.
  destruct (FHE_isInitialized (encryptedAllocation_at s zone)) eqn:E.
  - assert (Hin : zone ∈ zoneList s) by (apply Hlock, Hiff; reflexivity).
    rewrite decide_True by exact Hin.
    unfold zones_initialized, zone_registry_lockstep. cbn.
    split; [|split; [split|split]]; try assumption; try reflexivity.
    + intros z h. rewrite lookup_insert.
      destruct (decide (zone = z)); [intros [= <-]; apply isInitialized_add|apply Hinit].
    + intros z. rewrite lookup_insert.
      destruct (decide (zone = z)) as [<-|]; [|apply Hlock].
      split; [eauto|intros _; exact Hin].
  - assert (Hout : zone ∉ zoneList s).
    { intros Hin. apply Hlock, Hiff in Hin. congruence. }
    rewrite decide_False by exact Hout.
    unfold zones_initialized, zone_registry_lockstep. cbn.
    split; [|split; [split|split]]; try reflexivity.
    + intros z h. rewrite lookup_insert.
      destruct (decide (zone = z)); [intros [= <-]; apply isInitialized_add|].
      rewrite lookup_insert_ne by assumption. apply Hinit.
    + apply NoDup_app. split; [exact Hnodup|]. split; [|apply NoDup_singleton].
      intros z Hz Hz'. apply list_elem_of_singleton in Hz' as ->. exact (Hout Hz).
    + intros z. rewrite elem_of_app, list_elem_of_singleton, lookup_insert.
      destruct (decide (zone = z)) as [<-|Hne].
      * split; [eauto|intros _; right; reflexivity].
      * rewrite lookup_insert_ne by assumption. rewrite Hlock.
        split; [intros [H|H]; [exact H|congruence]|intros H; left; exact H].
    + apply elem_of_app. right. left.
Qed.

(** X15. A contribution keeps the registry and the accumulator map in
    lock-step.  If every stored total is initialized and the list names,
    once each, exactly the zones that hold a total, the same is true after
    [updateZoneAllocation], and the zone contributed to is then
    registered: it is appended when it held no total, and the list is
    left alone when it did. *)
Theorem updateZoneAllocation_keeps_lockstep
    (s s' : State) (zone : string) (additional : euint32) :
  zones_initialized s ->
  zone_registry_lockstep s ->
  updateZoneAllocation zone additional s = Done tt s' ->
  zones_initialized s' /\
  zone_registry_lockstep s' /\
  zone ∈ zoneList s' /\
  zoneList s' = (if decide (zone ∈ zoneList s) then zoneList s else zoneList s ++ [zone]).
Proof.
  intros Hinit Hlock. rewrite updateZoneAllocation_run. intros [= <-].
  apply contributed_lockstep; assumption.
Qed.

Lemma lockstep_step c s :
  zones_initialized s /\ zone_registry_lockstep s ->
  zones_initialized (step c s) /\ zone_registry_lockstep (step c s).
Proof.
  intros [Hinit Hlock]. split; [apply zones_initialized_step; assumption|].
  apply step_cases; [exact Hlock|..].
  - intros t d p _ _. exact Hlock.
  - intros reqId oracleId _ _. exact Hlock.
  - intros decReqId cleartexts proof d p _ _ _ _.
    unfold resolved.
    set (s3 := update_decryptedRequests _ (set_processed true) _).
    destruct (contributed_lockstep s3 "main_zone" (euint32_wrap d)) as (_ & Hl & _).
    + exact Hinit.
    + exact Hlock.
    + exact Hl.
  - intros zone oracleId _ _. exact Hlock.
Qed.

Lemma lockstep_run calls :
  zones_initialized (run calls init) /\ zone_registry_lockstep (run calls init).
Proof.
  apply (run_invariant (fun s => zones_initialized s /\ zone_registry_lockstep s));
    [apply lockstep_step|].
  split.
  - intros zone h. cbn. rewrite lookup_empty. discriminate.
  - split; [constructor|]. intros zone. cbn. rewrite lookup_empty.
    split; [intros H; inversion H|intros [h Hh]; discriminate].
Qed.

Lemma main_zone_step c s :
  zones_initialized s -> zone_registry_lockstep s ->
  "main_zone" ∈ zoneList (step c s)
    <-> "main_zone" ∈ zoneList s \/ is_resolution c && succeeds c s = true.
Proof.
  intros Hinit Hlock.
  destruct c as [t d p|reqId oracleId|decReqId cleartexts proof|zone oracleId|reqId cleartexts proof];
    unfold step, succeeds, call, dispatch; cbn [is_resolution andb].
  - rewrite submitEncryptedRequest_run.
    destruct (requestCount s + 1 <=? MAX_UINT256); cbn; intuition discriminate.
  - rewrite requestDecryption_run.
    destruct (processed (decryptedRequests_at s reqId)); cbn; intuition discriminate.
  - rewrite decryptRequest_run. cbn zeta.
    destruct (requestToId_at s decReqId =? 0); cbn; [intuition discriminate|].
    destruct (processed (decryptedRequests_at s (requestToId_at s decReqId))); cbn;
      [intuition discriminate|].
    destruct (FHE_checkSignatures decReqId cleartexts proof); cbn;
      [|intuition discriminate].
    destruct (decode_uint32_pair cleartexts) as [[d p]|]; cbn; [|intuition discriminate].
    split; [intros _; right; reflexivity|]. intros _.
    unfold resolved.
    set (s3 := update_decryptedRequests _ (set_processed true) _).
    destruct (contributed_lockstep s3 "main_zone" (euint32_wrap d)) as (_ & _ & Hin & _);
      [exact Hinit|exact Hlock|exact Hin].
  - rewrite requestAllocationDecryption_run.
    destruct (FHE_isInitialized (encryptedAllocation_at s zone)); cbn; intuition discriminate.
  - destruct (decryptAllocation_run reqId cleartexts proof s) as [[e ->] | ->];
      cbn; intuition discriminate.
Qed.

Lemma main_zone_run calls s :
  zones_initialized s -> zone_registry_lockstep s ->
  "main_zone" ∈ zoneList (run calls s)
    <-> "main_zone" ∈ zoneList s \/ resolutions calls s <> [].
Proof.
  revert s. induction calls as [|c rest IH]; intros s Hinit Hlock.
  - cbn. intuition congruence.
  - cbn [run]. destruct (lockstep_step c s (conj Hinit Hlock)) as [Hinit' Hlock'].
    rewrite (IH _ Hinit' Hlock'), (main_zone_step c s Hinit Hlock).
    unfold resolutions. rewrite filter_successful_cons.
    destruct (is_resolution c && succeeds c s); cbn.
    + split; intros _; [right; discriminate|left; right; reflexivity].
    + split; [intros [[H|H]|H]|intros [H|H]]; try discriminate; auto.
Qed.

Lemma zone_registry_run (calls : list Call) :
  zones_initialized (run calls init) /\
  zone_registry_lockstep (run calls init) /\
  (resolutions calls init = [] -> zoneList (run calls init) = []) /\
  (resolutions calls init <> [] -> zoneList (run calls init) = ["main_zone"]).
Proof.
  destruct (lockstep_run calls) as [Hinit Hlock].
  split; [exact Hinit|]. split; [exact Hlock|].
  assert (Honly : forall z, z ∈ zoneList (run calls init) -> z = "main_zone").
  { intros z Hz. destruct (decide (z = "main_zone")) as [|Hne]; [assumption|].
    apply Hlock in Hz as [h Hh].
    rewrite (only_main_zone_run calls z Hne) in Hh. discriminate. }
  assert (Hmain : "main_zone" ∈ zoneList (run calls init) <-> resolutions calls init <> []).
  { rewrite main_zone_run.
    - cbn. split; [intros [H|H]; [inversion H|exact H]|intros H; right; exact H].
    - intros zone h. cbn. rewrite lookup_empty. discriminate.
    - split; [constructor|]. intros zone. cbn. rewrite lookup_empty.
      split; [intros H; inversion H|intros [h Hh]; discriminate]. }
  destruct Hlock as [Hnodup _].
  destruct (zoneList (run calls init)) as [|a [|b rest]] eqn:El.
  - split; [reflexivity|]. intros Hres. apply Hmain in Hres. inversion Hres.
  - rewrite (Honly a) by left. split; [|reflexivity].
    intros Hres. exfalso. apply Hmain; [|exact Hres].
    rewrite (Honly a) by left. left.
  - exfalso. pose proof (Honly a ltac:(left)) as Ha.
    pose proof (Honly b ltac:(right; left)) as Hb. subst.
    apply NoDup_cons in Hnodup as [Hnot _]. apply Hnot. left.
Qed.

(** X16. In every reachable state the registry and the accumulator map are
    in lock-step, every stored total is initialized, and only "main_zone"
    can be registered: the list of zones is empty until the first
    resolution goes through and is ["main_zone"] from then on. *)
Theorem zone_registry_reachable (calls : list Call) :
  let s := run calls init in
  zones_initialized s /\
  zone_registry_lockstep s /\
  (resolutions calls init = [] -> zoneList s = []) /\
  (resolutions calls init <> [] -> zoneList s = ["main_zone"]).
Proof. cbn zeta. apply zone_registry_run. Qed.

(** X17. A zone total can be sent for decryption only once something has
    been accumulated in it.  In a reachable state a zone decryption
    request goes through exactly for "main_zone" after at least one
    resolution has gone through; for every other zone, and for "main_zone"
    before the first resolution, it reverts with "Zone not found" and
    changes nothing. *)
Theorem requestAllocationDecryption_reachable
    (calls : list Call) (zone : string) (oracleId : Z) :
  let s := run calls init in
  (zone = "main_zone" /\ resolutions calls init <> [] ->
   exists s', call (requestAllocationDecryption zone oracleId) s = (Ok tt, s') /\
              requestToId s' !! oracleId = Some (bytes32ToUint (keccak256_packed zone)) /\
              events s' = events s) /\
  (zone <> "main_zone" \/ resolutions calls init = [] ->
   call (requestAllocationDecryption zone oracleId) s
     = (Reverted (Revert "Zone not found"), s)).
Proof.
  cbn zeta. destruct (zone_registry_run calls) as (Hinit & Hlock & Hnone & Hsome).
  destruct Hlock as [_ Hlock]. unfold call. rewrite requestAllocationDecryption_run.
  split.
  - intros [-> Hres].
    assert (Hi : FHE_isInitialized (encryptedAllocation_at (run calls init) "main_zone") = true).
    { apply (initialized_iff_stored _ _ Hinit), Hlock. rewrite (Hsome Hres). left. }
    rewrite Hi. eexists. split; [reflexivity|].
    unfold allocation_decryption_requested. cbn. split; [apply lookup_insert_eq|reflexivity].
  - intros Hcase.
    destruct (FHE_isInitialized (encryptedAllocation_at (run calls init) zone)) eqn:Hi;
      [|reflexivity].
    exfalso. apply (initialized_iff_stored _ _ Hinit), Hlock in Hi.
    destruct (decide (resolutions calls init = [])) as [Hres|Hres].
    + rewrite (Hnone Hres) in Hi. inversion Hi.
    + rewrite (Hsome Hres) in Hi. apply list_elem_of_singleton in Hi.
      destruct Hcase as [Hz|Hr]; congruence.
Qed.

End ZoneRegistry.

End Properties.

(** ** The contract run against the plaintext mirror *)

Module Runs.

Import Mock.

#[local] Existing Instance mock_fhe.
#[local] Existing Instance mock_keccak.

Lemma mock_laws : FHELaws mock_fhe.
Proof.
  split; cbn; unfold made, MAX_UINT32.
  - intros h. pose proof (Z.mod_pos_bound h (2 ^ 32)). lia.
  - intros n Hn. rewrite (Z.mod_small n) by lia.
    rewrite <- (Z.mul_1_l (2 ^ 32)) at 1.
    rewrite Z.add_comm, Z.mod_add by lia. apply Z.mod_small. lia.
  - intros a b.
    rewrite <- (Z.mul_1_l (2 ^ 32)) at 1.
    rewrite (Z.add_comm (1 * 2 ^ 32)), Z.mod_add by lia.
    rewrite Z.mod_mod by lia. apply Z.add_mod. lia.
  - intros a b. pose proof (Z.mod_pos_bound (a + b) (2 ^ 32)).
    apply negb_true_iff, Z.eqb_neq. lia.
Qed.

(** In the mirror the conversion of a [uint32] decrypts to that value. *)
Lemma mock_mirror d : 0 <= d <= MAX_UINT32 -> merged_plaintext d = d.
Proof. intros Hd. cbn. apply Z.mod_small. unfold MAX_UINT32 in Hd. lia. Qed.

(** The mirror's zero handle is the uninitialized one. *)
Lemma zero_handle_uninitialized : FHE_isInitialized (euint32_wrap 0) = false.
Proof. reflexivity. Qed.

(** The scenario of the specification: submit (5, 2), request decryption,
    resolve with a valid proof. *)
Lemma lifecycle_reads :
  submitted_ids (run lifecycle init) = [1] /\
  fst (call (getDecryptedRequest 1) (run lifecycle init)) = Ok (5, 2, true) /\
  zone_total (run lifecycle init) "main_zone" = 5.
Proof. repeat split; vm_compute; reflexivity. Qed.

(** *** C1: accumulation *)

(** Two resolutions each revealing 2^32 - 1: the demands sum to
    2^33 - 2, the total decrypts to 2^32 - 2. *)
Lemma zone_total_overflows :
  resolved_demands two_large_demands init = [4294967295; 4294967295] /\
  sum_demands (resolved_demands two_large_demands init) = 8589934590 /\
  zone_total (run two_large_demands init) "main_zone" = 4294967294 /\
  zone_total (run two_large_demands init) "main_zone"
    <> sum_demands (resolved_demands two_large_demands init).
Proof. repeat split; vm_compute; congruence. Qed.

(** The second stand-in satisfies the same laws. *)
Lemma strict_laws : FHELaws strict_fhe.
Proof.
  assert (Hmade : forall n, strict_plain (made n) = n mod 2 ^ 32).
  { intros n. unfold strict_plain, made.
    pose proof (Z.mod_pos_bound n (2 ^ 32)).
    destruct (Z.leb_spec (2 ^ 32) (2 ^ 32 + n mod 2 ^ 32)); [|lia].
    rewrite Z.add_comm, Z.add_mod, Z.mod_same, Z.add_0_r, !Z.mod_mod by lia.
    reflexivity. }
  split.
  - intros h. cbn. unfold strict_plain, MAX_UINT32.
    pose proof (Z.mod_pos_bound h (2 ^ 32)).
    destruct (2 ^ 32 <=? h); lia.
  - intros n Hn. cbn. rewrite Hmade. apply Z.mod_small. unfold MAX_UINT32 in Hn. lia.
  - intros a b. cbn. apply Hmade.
  - intros a b. cbn. unfold made.
    pose proof (Z.mod_pos_bound (strict_plain a + strict_plain b) (2 ^ 32)).
    apply negb_true_iff, Z.eqb_neq. lia.
Qed.

(** Against it the handle merged on line 89 for a revealed demand of 5,
    which is a conversion where line 96 encrypts, decrypts to zero, and so
    does the total after the resolution. *)
Lemma zone_total_of_converted_demand :
  resolved_demands (fhe := strict_fhe) strict_lifecycle init = [5] /\
  merged_plaintext (fhe := strict_fhe) 5 = 0 /\
  zone_total (fhe := strict_fhe) (run strict_lifecycle init) "main_zone" = 0.
Proof. repeat split; vm_compute; reflexivity. Qed.

Lemma zone_total_is_sum_mod_witness :
  FHELaws mock_fhe /\
  FHE_isInitialized (euint32_wrap 0) = false /\
  resolved_demands three_small_demands init = [5; 7; 0] /\
  zone_total (run three_small_demands init) "main_zone" = 12.
Proof.
  split; [exact mock_laws|]. split; [reflexivity|]. split; [vm_compute; reflexivity|].
  destruct (zone_total_is_sum_mod mock_laws zero_handle_uninitialized three_small_demands)
    as (_ & Hmirror & _).
  destruct (Hmirror mock_mirror) as [_ Hfit].
  rewrite Hfit.
  - vm_compute. reflexivity.
  - vm_compute. discriminate.
Defined.

(** *** C2: reading a result *)

(** After one submission, id 2 was never issued; reading it answers the
    zero tuple and is not an error. *)
Lemma getDecryptedRequest_never_issued :
  submitted_ids (run one_submission init) = [1] /\
  ~ issued (run one_submission init) 2 /\
  fst (call (getDecryptedRequest 2) (run one_submission init)) = Ok (0, 0, false) /\
  (forall e, fst (call (getDecryptedRequest 2) (run one_submission init)) <> Reverted e).
Proof.
  split; [vm_compute; reflexivity|].
  split; [unfold issued; vm_compute; intuition congruence|].
  split; [vm_compute; reflexivity|]. intros e. vm_compute. discriminate.
Qed.

Lemma getDecryptedRequest_unresolved_witness :
  submitted_ids (run in_flight init) = [1] /\
  (1 ∉ omap decrypted_id (events (run in_flight init))) /\
  fst (call (getDecryptedRequest 1) (run in_flight init)) = Ok (0, 0, false).
Proof.
  assert (Hnot : 1 ∉ omap decrypted_id (events (run in_flight init)))
    by (vm_compute; apply not_elem_of_nil).
  split; [vm_compute; reflexivity|]. split; [exact Hnot|].
  destruct (getDecryptedRequest_unresolved in_flight 1) as (_ & _ & Hread & _).
  cbn zeta in Hread. rewrite (Hread Hnot). reflexivity.
Defined.

(** *** C3: registering a correlation *)


(** *** C4: resolving twice *)

Lemma second_resolution_fails_witness :
  let resolution := decryptRequest 70 (encode_uint32_pair 5 2) good_proof in
  let s := run in_flight_70 init in
  let s1 := snd (call resolution s) in
  fst (call resolution s) = Ok tt /\
  call (decryptRequest 70 (encode_uint32_pair 9 9) good_proof) s1
    = (Reverted (Revert "Already decrypted"), s1).
Proof.
  cbn zeta.
  set (resolution := decryptRequest 70 (encode_uint32_pair 5 2) good_proof).
  set (s := run in_flight_70 init).
  assert (Hok : fst (call resolution s) = Ok tt) by (vm_compute; reflexivity).
  split; [exact Hok|].
  assert (Hfirst : call resolution s = (Ok tt, snd (call resolution s))).
  { rewrite (call_eta resolution s) at 1. rewrite Hok. reflexivity. }
  destruct (second_resolution_fails _ _ _ _ _ Hfirst) as (_ & _ & Hsame & Hagain & _).
  apply Hagain, Hsame.
Defined.

(** *** C5: a rejected proof *)

Lemma decryptRequest_checks_precede_writes_witness :
  let s := run in_flight init in
  FHE_checkSignatures 10 (encode_uint32_pair 3 1) bad_proof = false /\
  decryptRequest 10 (encode_uint32_pair 3 1) bad_proof s = Abort InvalidProof s /\
  call (decryptRequest 10 (encode_uint32_pair 3 1) bad_proof) s
    = (Reverted InvalidProof, s) /\
  call (getDecryptedRequest (requestToId_at s 10)) s = (Ok (0, 0, false), s).
Proof.
  cbn zeta. set (s := run in_flight init).
  assert (Hrej : FHE_checkSignatures 10 (encode_uint32_pair 3 1) bad_proof = false)
    by (vm_compute; reflexivity).
  assert (He : fst (call (decryptRequest 10 (encode_uint32_pair 3 1) bad_proof) s)
               = Reverted InvalidProof)
    by (vm_compute; reflexivity).
  destruct (decryptRequest_checks_precede_writes in_flight 10
              (encode_uint32_pair 3 1) bad_proof) as [Habs Hrejected].
  destruct (Hrejected Hrej) as (e & Habort & _).
  destruct (Habs _ _ Habort) as (_ & Hcall & Hread).
  fold s in Habort, Hcall, Hread.
  rewrite Hcall in He. cbn [fst] in He.
  assert (Heq : e = InvalidProof) by congruence.
  rewrite Heq in Habort, Hcall, Hread.
  split; [exact Hrej|]. split; [exact Habort|]. split; [exact Hcall|].
  apply Hread. discriminate.
Defined.

(** *** C6: a second request while the first is in flight *)

(** Request 1 is in flight with callback 10; asking again is accepted
    and leaves callbacks 10 and 11 both outstanding for request 1. *)
Lemma second_request_in_flight_accepted :
  requestToId (run in_flight init) !! 10 = Some 1 /\
  processed (decryptedRequests_at (run in_flight init) 1) = false /\
  fst (call (requestDecryption 1 11) (run in_flight init)) = Ok tt /\
  requestToId (snd (call (requestDecryption 1 11) (run in_flight init))) !! 10 = Some 1 /\
  requestToId (snd (call (requestDecryption 1 11) (run in_flight init))) !! 11 = Some 1 /\
  oracle_id <$> oracle (snd (call (requestDecryption 1 11) (run in_flight init)))
    = [10; 11].
Proof. repeat split; vm_compute; reflexivity. Qed.

Lemma requestDecryption_in_flight_accepted_witness :
  let s := run one_submission init in
  let s1 := snd (call (requestDecryption 1 10) s) in
  fst (call (requestDecryption 1 10) s) = Ok tt /\
  exists s2, call (requestDecryption 1 11) s1 = (Ok tt, s2) /\
             requestToId s2 !! 10 = Some 1 /\ requestToId s2 !! 11 = Some 1.
Proof.
  cbn zeta. set (s := run one_submission init).
  assert (Hok : fst (call (requestDecryption 1 10) s) = Ok tt) by (vm_compute; reflexivity).
  split; [exact Hok|].
  assert (Hfirst : call (requestDecryption 1 10) s
                   = (Ok tt, snd (call (requestDecryption 1 10) s))).
  { rewrite (call_eta (requestDecryption 1 10) s) at 1. rewrite Hok. reflexivity. }
  destruct (requestDecryption_in_flight_accepted _ _ 1 10 11 Hfirst)
    as [(s2 & Hsecond & Htable & _) _].
  exists s2. split; [exact Hsecond|]. rewrite Htable.
  split; vm_compute; reflexivity.
Defined.

(** *** C7: identifiers *)

Lemma submitted_ids_sequential_witness :
  submitted_ids (run interleaved init) = [1; 2; 3] /\
  requestCount (run interleaved init) = 3.
Proof.
  destruct (submitted_ids_sequential interleaved) as (Hids & Hcount & _).
  split; [rewrite Hids|rewrite Hcount]; vm_compute; reflexivity.
Defined.

(** *** C8: an unknown callback *)

Lemma decryptRequest_unregistered_witness :
  (71 ∉ registered_callbacks lifecycle init) /\
  call (decryptRequest 71 (encode_uint32_pair 5 2) good_proof) (run lifecycle init)
    = (Reverted (Revert "Invalid request"), run lifecycle init).
Proof.
  assert (Hnot : 71 ∉ registered_callbacks lifecycle init).
  { vm_compute. intros Hin. apply list_elem_of_In in Hin.
    destruct Hin as [Heq | []]. discriminate Heq. }
  split; [exact Hnot|].
  destruct (decryptRequest_unregistered lifecycle 71 (encode_uint32_pair 5 2)
              good_proof Hnot) as (_ & _ & Hcall).
  exact Hcall.
Defined.

(** *** C9: reading a zone *)

(** Before any resolution "main_zone" holds nothing: the read answers the
    zero handle, which is not initialized, and is not an error. *)
Lemma getEncryptedAllocation_uninitialized :
  zoneList (run in_flight init) = [] /\
  encryptedAllocation (run in_flight init) !! "main_zone" = None /\
  fst (call (getEncryptedAllocation "main_zone") (run in_flight init))
    = Ok (euint32_wrap 0) /\
  FHE_isInitialized (euint32_wrap 0) = false /\
  (forall e, fst (call (getEncryptedAllocation "main_zone") (run in_flight init))
             <> Reverted e).
Proof.
  split; [vm_compute; reflexivity|]. split; [vm_compute; reflexivity|].
  split; [vm_compute; reflexivity|]. split; [reflexivity|].
  intros e. vm_compute. discriminate.
Qed.

Lemma getEncryptedAllocation_total_witness :
  encryptedAllocation (run in_flight init) !! "north_zone" = None /\
  call (getEncryptedAllocation "north_zone") (run in_flight init)
    = (Ok (euint32_wrap 0), run in_flight init) /\
  fst (call (getEncryptedAllocation "main_zone") (run lifecycle init)) = Ok (made 5).
Proof.
  destruct (getEncryptedAllocation_total (run in_flight init) "north_zone")
    as (_ & _ & Hnone & _).
  destruct (getEncryptedAllocation_total (run lifecycle init) "main_zone")
    as (Hread & _).
  assert (Hempty : encryptedAllocation (run in_flight init) !! "north_zone" = None)
    by (vm_compute; reflexivity).
  split; [exact Hempty|]. split; [exact (Hnone Hempty)|].
  rewrite Hread. cbn [fst]. vm_compute. reflexivity.
Defined.

(** *** C10: a request that was never submitted *)

(** Id 5 was never issued, yet a callback registered for it has been
    resolved; asking to decrypt id 5 again now fails. *)
Lemma requestDecryption_unissued_rejected :
  submitted_ids (run phantom_resolved init) = [] /\
  ~ issued (run phantom_resolved init) 5 /\
  fst (call (getDecryptedRequest 5) (run phantom_resolved init)) = Ok (3, 4, true) /\
  fst (call (requestDecryption 5 2) (run phantom_resolved init))
    = Reverted (Revert "Already decrypted").
Proof.
  split; [vm_compute; reflexivity|].
  split; [unfold issued; vm_compute; intuition congruence|].
  split; vm_compute; reflexivity.
Qed.

(** When id 5 is later given to a submission, the submission writes the
    zero result over the one stored for the nonexistent request: request 5
    starts unprocessed, and the callback registered before it existed
    resolves it. *)
Lemma unissued_id_reset_by_submission :
  submitted_ids (run phantom_then_submitted init) = [1; 2; 3; 4; 5] /\
  fst (call (getDecryptedRequest 5) (run phantom_then_submitted init))
    = Ok (0, 0, false) /\
  fst (call (decryptRequest 1 (encode_uint32_pair 3 4) good_proof)
         (run phantom_then_submitted init)) = Ok tt.
Proof. repeat split; vm_compute; reflexivity. Qed.

Lemma requestDecryption_unissued_witness :
  ~ issued (run one_submission init) 0 /\
  ~ issued (run one_submission init) 9 /\
  (exists s', call (requestDecryption 0 40) (run one_submission init) = (Ok tt, s') /\
              requestToId s' !! 40 = Some 0) /\
  (exists s', call (requestDecryption 9 41) (run one_submission init) = (Ok tt, s') /\
              requestToId s' !! 41 = Some 9).
Proof.
  assert (H0 : ~ issued (run one_submission init) 0)
    by (unfold issued; vm_compute; intuition congruence).
  assert (H9 : ~ issued (run one_submission init) 9)
    by (unfold issued; vm_compute; intuition congruence).
  split; [exact H0|]. split; [exact H9|]. split.
  - destruct (requestDecryption_unissued one_submission 0 40 H0 (or_introl eq_refl))
      as (s' & Hcall & Htable & _).
    exists s'. split; [exact Hcall|exact Htable].
  - assert (Hp : processed (decryptedRequests_at (run one_submission init) 9) = false)
      by (vm_compute; reflexivity).
    destruct (requestDecryption_unissued one_submission 9 41 H9 (or_intror Hp))
      as (s' & Hcall & Htable & _).
    exists s'. split; [exact Hcall|exact Htable].
Defined.

(** *** Further properties, run *)

Lemma lifecycle_reveals_witness :
  let s := run one_submission init in
  let cleartexts := encode_uint32_pair 8 3 ++ [Byte.xff] in
  requestCount s + 1 <= MAX_UINT256 /\
  FHE_checkSignatures 55 cleartexts good_proof = true /\
  exists s1 s2 s3,
    call (submitEncryptedRequest 1002 (made 8) (made 3)) s = (Ok tt, s1) /\
    call (requestDecryption (requestCount s + 1) 55) s1 = (Ok tt, s2) /\
    call (decryptRequest 55 cleartexts good_proof) s2 = (Ok tt, s3) /\
    call (getDecryptedRequest (requestCount s + 1)) s3 = (Ok (8, 3, true), s3).
Proof.
  cbn zeta.
  assert (Hfit : requestCount (run one_submission init) + 1 <= MAX_UINT256)
    by (vm_compute; discriminate).
  assert (Hok : FHE_checkSignatures 55 (encode_uint32_pair 8 3 ++ [Byte.xff]) good_proof = true)
    by (vm_compute; reflexivity).
  split; [exact Hfit|]. split; [exact Hok|].
  apply (lifecycle_reveals one_submission 1002 (made 8) (made 3) 55 8 3 [Byte.xff] good_proof);
    [exact Hfit|unfold MAX_UINT32; lia|unfold MAX_UINT32; lia|exact Hok].
Defined.

Lemma resolved_result_persists_witness :
  let later := [ RequestDecryption 1 71;
                 DecryptRequest 70 (encode_uint32_pair 9 9) good_proof;
                 SubmitEncryptedRequest 1003 (made 1) (made 1) ] in
  issued (run lifecycle init) 1 /\
  processed (decryptedRequests_at (run lifecycle init) 1) = true /\
  fst (call (getDecryptedRequest 1) (run later (run lifecycle init))) = Ok (5, 2, true).
Proof.
  intros later.
  assert (Hissued : issued (run lifecycle init) 1)
    by (unfold issued; vm_compute; split; discriminate).
  assert (Hp : processed (decryptedRequests_at (run lifecycle init) 1) = true)
    by (vm_compute; reflexivity).
  split; [exact Hissued|]. split; [exact Hp|].
  destruct (resolved_result_persists (run lifecycle init) 1 later Hissued Hp) as [_ Hcall].
  cbn zeta in Hcall. rewrite Hcall. cbn [fst]. vm_compute. reflexivity.
Defined.

Lemma submitted_request_immutable_witness :
  let s := run one_submission init in
  let later := [ RequestDecryption 2 5;
                 DecryptRequest 5 (encode_uint32_pair 6 6) good_proof;
                 SubmitEncryptedRequest 1004 (made 1) (made 1) ] in
  0 <= requestCount s /\
  fst (call (submitEncryptedRequest 1002 (made 8) (made 3)) s) = Ok tt /\
  encryptedRequests_at
    (run later (snd (call (submitEncryptedRequest 1002 (made 8) (made 3)) s)))
    (requestCount s + 1)
    = {| id := requestCount s + 1; encryptedDemand := made 8;
         encryptedPriority := made 3; timestamp := 1002 |}.
Proof.
  intros s later.
  assert (Hpos : 0 <= requestCount s) by (vm_compute; discriminate).
  assert (Hok : fst (call (submitEncryptedRequest 1002 (made 8) (made 3)) s) = Ok tt)
    by (vm_compute; reflexivity).
  split; [exact Hpos|]. split; [exact Hok|].
  set (submission := submitEncryptedRequest (fhe := mock_fhe) 1002 (made 8) (made 3)) in *.
  assert (Hcall : call submission s = (Ok tt, snd (call submission s))).
  { rewrite (call_eta submission s) at 1. rewrite Hok. reflexivity. }
  destruct (submitted_request_immutable s _ 1002 _ _ later Hpos Hcall) as [Hstored _].
  exact Hstored.
Defined.

Lemma requestCount_bounded_witness :
  let s := set_requestCount MAX_UINT256 init in
  requestCount s = MAX_UINT256 /\
  call (submitEncryptedRequest 1000 (made 1) (made 1)) s = (Reverted (Panic 17), s).
Proof.
  cbn zeta. split; [reflexivity|].
  destruct requestCount_bounded as [_ Hfull].
  destruct (Hfull (set_requestCount MAX_UINT256 init) 1000 (made 1) (made 1) eq_refl)
    as [_ Hcall].
  exact Hcall.
Defined.

Lemma decryptRequest_short_cleartexts_witness :
  (length (encode_word 5) < 64)%nat /\
  exists e, call (decryptRequest 10 (encode_word 5) good_proof) (run in_flight init)
            = (Reverted e, run in_flight init).
Proof.
  assert (Hshort : (length (encode_word 5) < 64)%nat)
    by (rewrite length_encode_word; lia).
  split; [exact Hshort|].
  exact (decryptRequest_short_cleartexts (run in_flight init) 10 (encode_word 5)
           good_proof Hshort).
Defined.

Lemma getZoneFromHash_first_match_witness :
  let s := push_zoneList "south_zone" (push_zoneList "main_zone" init) in
  keccak256_packed "main_zone" <> keccak256_packed "south_zone" /\
  getZoneFromHash (bytes32ToUint (keccak256_packed "south_zone")) s = Done "south_zone" s /\
  getZoneFromHash 0 s = Abort (Revert "Zone not found") s.
Proof.
  cbn zeta.
  assert (Hne : keccak256_packed "main_zone" <> keccak256_packed "south_zone")
    by (vm_compute; discriminate).
  split; [exact Hne|].
  destruct (getZoneFromHash_first_match
              (push_zoneList "south_zone" (push_zoneList "main_zone" init))
              (bytes32ToUint (keccak256_packed "south_zone"))) as (Hfound & _ & _).
  destruct (getZoneFromHash_first_match
              (push_zoneList "south_zone" (push_zoneList "main_zone" init)) 0)
    as (_ & Hnone & _).
  split.
  - apply Hfound. exists ["main_zone"], []. split; [reflexivity|]. split; [reflexivity|].
    constructor; [exact Hne|constructor].
  - apply Hnone. cbn [zoneList push_zoneList init app].
    repeat constructor; vm_compute; discriminate.
Defined.

Lemma getZoneFromHash_registered_witness :
  zoneList (run lifecycle init) = ["main_zone"] /\
  getZoneFromHash (bytes32ToUint (keccak256_packed "main_zone")) (run lifecycle init)
    = Done "main_zone" (run lifecycle init).
Proof.
  assert (Hlist : zoneList (run lifecycle init) = ["main_zone"]) by (vm_compute; reflexivity).
  split; [exact Hlist|].
  assert (Hin : "main_zone" ∈ zoneList (run lifecycle init)) by (rewrite Hlist; left).
  destruct (getZoneFromHash_registered (run lifecycle init) "main_zone" Hin)
    as (found & Hcall & _ & _ & Hsame).
  rewrite Hcall. rewrite Hsame; [reflexivity|].
  intros z Hz _. rewrite Hlist in Hz. apply list_elem_of_singleton in Hz. exact Hz.
Defined.

Lemma decryptAllocation_writes_nothing_witness :
  let c := DecryptAllocation 80 (encode_word 5) good_proof in
  succeeds c (run zone_flow init) = true /\
  step c (run zone_flow init) = run zone_flow init /\
  succeeds (DecryptAllocation 81 (encode_word 5) good_proof) (run zone_flow init) = false.
Proof.
  cbn zeta.
  destruct (decryptAllocation_writes_nothing (run zone_flow init) 80 (encode_word 5) good_proof)
    as (Hstep & _ & _ & Hiff & _).
  split; [|split; [exact Hstep|vm_compute; reflexivity]].
  apply Hiff. split; [|split].
  - assert (Hscan : scan_zones (zoneList (run zone_flow init))
                      (requestToId_at (run zone_flow init) 80) = Some "main_zone")
      by (vm_compute; reflexivity).
    rewrite Hscan. eauto.
  - vm_compute. reflexivity.
  - assert (Hdec : decode_uint32_single (encode_word 5) = Some 5) by (vm_compute; reflexivity).
    rewrite Hdec. eauto.
Defined.

Lemma zone_callback_resolves_as_request_witness :
  let s := run lifecycle init in
  let hash := bytes32ToUint (keccak256_packed "main_zone") in
  fst (call (requestAllocationDecryption "main_zone" 80) s) = Ok tt /\
  hash <> 0 /\
  exists s2,
    call (decryptRequest 80 (encode_uint32_pair 7 1) good_proof)
      (snd (call (requestAllocationDecryption "main_zone" 80) s)) = (Ok tt, s2) /\
    decryptedRequests_at s2 hash = {| demand := 7; priority := 1; processed := true |}.
Proof.
  cbn zeta. set (s := run lifecycle init).
  assert (Hok : fst (call (requestAllocationDecryption "main_zone" 80) s) = Ok tt)
    by (vm_compute; reflexivity).
  assert (Hne : bytes32ToUint (keccak256_packed "main_zone") <> 0)
    by (vm_compute; discriminate).
  split; [exact Hok|]. split; [exact Hne|].
  assert (Hcall : call (requestAllocationDecryption "main_zone" 80) s
                  = (Ok tt, snd (call (requestAllocationDecryption "main_zone" 80) s))).
  { rewrite (call_eta (requestAllocationDecryption "main_zone" 80) s) at 1.
    rewrite Hok. reflexivity. }
  destruct (zone_callback_resolves_as_request s _ "main_zone" 80 7 1
              (encode_uint32_pair 7 1) good_proof Hcall Hne)
    as (s2 & Hresolved & Hstored & _).
  - vm_compute. reflexivity.
  - vm_compute. reflexivity.
  - vm_compute. reflexivity.
  - exists s2. split; [exact Hresolved|exact Hstored].
Defined.

Lemma request_zero_unresolvable_witness :
  exists s1,
    call (requestDecryption 0 9) (run one_submission init) = (Ok tt, s1) /\
    call (decryptRequest 9 (encode_uint32_pair 4 4) good_proof) s1
      = (Reverted (Revert "Invalid request"), s1).
Proof.
  destruct (request_zero_unresolvable one_submission 9 (encode_uint32_pair 4 4) good_proof)
    as (s1 & Hreq & _ & Hres & _).
  exists s1. split; [exact Hreq|exact Hres].
Defined.

Lemma correlation_table_domain_witness :
  registered_callbacks zero_requested init = [9] /\
  requestToId_at (run zero_requested init) 9 = 0 /\
  registered_callbacks three_small_demands init = [21; 22; 23] /\
  requestToId_at (run three_small_demands init) 24 = 0.
Proof.
  assert (Hreg : registered_callbacks three_small_demands init = [21; 22; 23])
    by (vm_compute; reflexivity).
  split; [vm_compute; reflexivity|]. split; [vm_compute; reflexivity|].
  split; [exact Hreg|].
  destruct (correlation_table_domain three_small_demands) as (_ & _ & _ & Hzero).
  apply Hzero. rewrite Hreg. intros Hin. apply list_elem_of_In in Hin. cbn in Hin.
  repeat (destruct Hin as [Hin|Hin]; [discriminate Hin|]). exact Hin.
Defined.

Lemma notifications_match_transitions_witness :
  length (resolutions three_small_demands init) = 3%nat /\
  length (omap decrypted_id (events (run three_small_demands init))) = 3%nat /\
  omap updated_zone (events (run three_small_demands init))
    = ["main_zone"; "main_zone"; "main_zone"].
Proof.
  assert (Hlen : length (resolutions three_small_demands init) = 3%nat)
    by (vm_compute; reflexivity).
  destruct (notifications_match_transitions three_small_demands) as (Hd & Hz & _).
  cbn zeta in Hd, Hz. rewrite Hd, Hz, Hlen. repeat split.
Defined.

Lemma updateZoneAllocation_keeps_lockstep_witness :
  exists s',
    updateZoneAllocation "north_zone" (made 4) init = Done tt s' /\
    zone_registry_lockstep s' /\
    zoneList s' = ["north_zone"].
Proof.
  set (s' := contributed (fhe := mock_fhe) "north_zone" (made 4) init).
  exists s'.
  assert (Hrun : updateZoneAllocation "north_zone" (made 4) init = Done tt s')
    by apply updateZoneAllocation_run.
  split; [exact Hrun|].
  destruct (updateZoneAllocation_keeps_lockstep mock_laws zero_handle_uninitialized
              init s' "north_zone" (made 4))
    as (_ & Hlock & _ & Hlist).
  - intros zone h. cbn. rewrite lookup_empty. discriminate.
  - split; [constructor|]. intros zone. cbn. rewrite lookup_empty.
    split; [intros H; inversion H|intros [h Hh]; discriminate].
  - exact Hrun.
  - split; [exact Hlock|]. rewrite Hlist. cbn [zoneList init].
    rewrite decide_False by (intros H; inversion H). reflexivity.
Defined.

Lemma zone_registry_reachable_witness :
  length (resolutions lifecycle init) = 1%nat /\
  zoneList (run lifecycle init) = ["main_zone"] /\
  length (resolutions in_flight init) = 0%nat /\
  zoneList (run in_flight init) = [].
Proof.
  assert (H1 : length (resolutions lifecycle init) = 1%nat) by (vm_compute; reflexivity).
  assert (H0 : length (resolutions in_flight init) = 0%nat) by (vm_compute; reflexivity).
  split; [exact H1|]. split; [|split; [exact H0|]].
  - destruct (zone_registry_reachable mock_laws zero_handle_uninitialized lifecycle)
      as (_ & _ & _ & Hsome).
    apply Hsome. intros Hnil. rewrite Hnil in H1. discriminate.
  - destruct (zone_registry_reachable mock_laws zero_handle_uninitialized in_flight)
      as (_ & _ & Hnone & _).
    apply Hnone. apply length_zero_iff_nil. exact H0.
Defined.

Lemma requestAllocationDecryption_reachable_witness :
  call (requestAllocationDecryption "north_zone" 80) (run lifecycle init)
    = (Reverted (Revert "Zone not found"), run lifecycle init) /\
  call (requestAllocationDecryption "main_zone" 80) (run in_flight init)
    = (Reverted (Revert "Zone not found"), run in_flight init) /\
  exists s', call (requestAllocationDecryption "main_zone" 80) (run lifecycle init)
             = (Ok tt, s').
Proof.
  assert (H1 : length (resolutions lifecycle init) = 1%nat) by (vm_compute; reflexivity).
  assert (H0 : length (resolutions in_flight init) = 0%nat) by (vm_compute; reflexivity).
  split; [|split].
  - destruct (requestAllocationDecryption_reachable mock_laws zero_handle_uninitialized
                lifecycle "north_zone" 80) as [_ Hrev].
    apply Hrev. left. discriminate.
  - destruct (requestAllocationDecryption_reachable mock_laws zero_handle_uninitialized
                in_flight "main_zone" 80) as [_ Hrev].
    apply Hrev. right. apply length_zero_iff_nil. exact H0.
  - destruct (requestAllocationDecryption_reachable mock_laws zero_handle_uninitialized
                lifecycle "main_zone" 80) as [Hok _].
    destruct Hok as (s' & Hcall & _).
    + split; [reflexivity|]. intros Hnil. rewrite Hnil in H1. discriminate.
    + exists s'. exact Hcall.
Defined.


Lemma results_in_range_run_witness :
  0 <= demand (decryptedRequests_at (run two_large_demands init) 2) <= MAX_UINT32 /\
  demand (decryptedRequests_at (run two_large_demands init) 2) = MAX_UINT32.
Proof.
  split; [|vm_compute; reflexivity].
  destruct (results_in_range_run two_large_demands 2) as [Hd _]. exact Hd.
Defined.

Lemma logs_only_grow_witness :
  let later := [ DecryptRequest 70 (encode_uint32_pair 5 2) good_proof ] in
  events (run in_flight_70 init) `prefix_of` events (run later (run in_flight_70 init)) /\
  length (events (run in_flight_70 init)) = 2%nat /\
  length (events (run later (run in_flight_70 init))) = 4%nat.
Proof.
  intros later.
  destruct (logs_only_grow later (run in_flight_70 init)) as [He _].
  split; [exact He|]. split; vm_compute; reflexivity.
Defined.

End Runs.
